(** * Induction-motor estimators library: a shallow embedding

    The development follows the two translation units of the library:

    - [fp_pid.h] / [fp_pid.c]: the floating point P, PI, PD and PID
      controllers ([tP_calc], [tPI_calc], ... and their [_rst] functions);
    - [im_estimators.h] / [im_estimators.c]: the machine parameters
      ([tIMparams_init]), the stator back-EMF observer ([tIMstatObs_calc]),
      the rotor flux and back-EMF observer ([tIMrotObs_calc]) and the
      sensorless speed and flux observer ([tIMspeedObs_calc]).

    Every C function takes a pointer to a record and mutates it in place.
    It is embedded as a function from the record on entry to the record on
    return, written as the same sequence of field assignments: each
    statement [p->f = e;] becomes [let s := set_f e s in], where [e] reads
    the fields of the record as the preceding statements left them.

    The C type [float] is kept abstract behind the class [FloatArith] and
    instantiated twice: [binary32] is IEEE 754 single precision, round to
    nearest even, evaluated operation by operation (no contraction into
    fused multiply-add, no excess precision); [exact_real] is the
    arithmetic of the real numbers, used to state closed forms. *)

From Stdlib Require Import ZArith Bool List Reals Lra Lia.
From Stdlib Require Import Floats.SpecFloat.
Import ListNotations.

Set Implicit Arguments.

(** ** The arithmetic of [float] *)

Class FloatArith (F : Type) : Type := {
  f0   : F;                 (* the literal 0.0f *)
  f1   : F;                 (* the literal 1.0f *)
  f0_5 : F;                 (* the literal 0.5f *)
  fadd : F -> F -> F;
  fsub : F -> F -> F;
  fmul : F -> F -> F;
  fdiv : F -> F -> F;
  fgt  : F -> F -> bool;    (* the C comparison [a > b] *)
  flt  : F -> F -> bool     (* the C comparison [a < b] *)
}.

Declare Scope cfloat_scope.
Delimit Scope cfloat_scope with cf.
Notation "x + y" := (fadd x y) : cfloat_scope.
Notation "x - y" := (fsub x y) : cfloat_scope.
Notation "x * y" := (fmul x y) : cfloat_scope.
Notation "x / y" := (fdiv x y) : cfloat_scope.
Notation "x >? y" := (fgt x y) : cfloat_scope.
Notation "x <? y" := (flt x y) : cfloat_scope.

(** IEEE 754 binary32: 24 bits of precision, maximal exponent 128.  A
    comparison with a NaN operand is false, as in C. *)
Module Binary32.
Definition prec : Z := 24.
Definition emax : Z := 128.
Definition float : Type := spec_float.
  (** The float nearest to [m * 2^e]. *)
Definition of_scaled (m e : Z) : float := binary_normalize prec emax m e false.
Definition of_Z (m : Z) : float := of_scaled m 0.
End Binary32.

#[export] Instance binary32 : FloatArith Binary32.float := {|
  f0   := S754_zero false;
  f1   := S754_finite false 8388608 (-23);
  f0_5 := S754_finite false 8388608 (-24);
  fadd := SFadd Binary32.prec Binary32.emax;
  fsub := SFsub Binary32.prec Binary32.emax;
  fmul := SFmul Binary32.prec Binary32.emax;
  fdiv := SFdiv Binary32.prec Binary32.emax;
  fgt  := fun a b => SFltb b a;
  flt  := fun a b => SFltb a b
|}.

(** Exact arithmetic over the reals: what the formulas mean before
    rounding.  It is not the arithmetic of the program (no rounding, no
    overflow, no NaN, a total division): it only serves to say how far the
    PI recurrence is from the trapezoidal closed form for every number of
    samples, beside the binary32 evaluation. *)
#[export] Instance exact_real : FloatArith R := {|
  f0   := 0%R;
  f1   := 1%R;
  f0_5 := (1 / 2)%R;
  fadd := Rplus;
  fsub := Rminus;
  fmul := Rmult;
  fdiv := Rdiv;
  fgt  := fun a b => if Rgt_dec a b then true else false;
  flt  := fun a b => if Rlt_dec a b then true else false
|}.

(** ** fp_pid.h: the controller records

    A function pointer field is modelled by the name of the function it
    holds, among the functions of the library that have the field's
    prototype. *)

(** Pointers to a function taking a [struct sP] pointer and returning [void]. *)
Inductive fptr_sP : Type := Fn_tP_calc | Fn_tP_rst.
(** Pointers to a function taking a [struct sPI] pointer and returning [void]. *)
Inductive fptr_sPI : Type := Fn_tPI_calc | Fn_tPI_rst.
(** Pointers to a function taking a [struct sPD] pointer and returning [void]. *)
Inductive fptr_sPD : Type := Fn_tPD_calc | Fn_tPD_rst.
(** Pointers to a function taking a [struct sPID] pointer and returning [void]. *)
Inductive fptr_sPID : Type := Fn_tPID_calc | Fn_tPID_rst.

Module sP.
Section Fields.
Variable F : Type.

Record tP : Type := mk {
    fIn        : F;        (* Controller's input *)
    fUpOutLim  : F;        (* Controller's output upper limit *)
    fLowOutLim : F;        (* Controller's output lower limit *)
    fKp        : F;        (* Proportional coefficient value *)
    fOut       : F;        (* Controller's output *)
    m_calc     : fptr_sP;  (* Pointer to controller's out calculator *)
    m_rst      : fptr_sP   (* Pointer to controller's reset function *)
  }.

Definition set_fIn (v : F) (s : tP) : tP :=
    mk v (fUpOutLim s) (fLowOutLim s) (fKp s) (fOut s) (m_calc s) (m_rst s).
Definition set_fOut (v : F) (s : tP) : tP :=
    mk (fIn s) (fUpOutLim s) (fLowOutLim s) (fKp s) v (m_calc s) (m_rst s).
End Fields.
End sP.

Module sPI.
Section Fields.
Variable F : Type.

Record tPI : Type := mk {
    fDtSec     : F;        (* Discretization time, Sec *)
    fIn        : F;        (* Controller's input *)
    fKp        : F;        (* Proportional coefficient value *)
    fKi        : F;        (* Integral coefficient value *)
    fUpOutLim  : F;        (* Controller's output upper limit *)
    fLowOutLim : F;        (* Controller's output lower limit *)
    fPout      : F;        (* Proportional link's output *)
    fIout      : F;        (* Integral link's output *)
    fIprevIn   : F;        (* Integral link's previous input *)
    fIprevOut  : F;        (* Integral link's previous output *)
    fOut       : F;        (* Controller's output *)
    m_calc     : fptr_sPI; (* Pointer to controller's out calculator *)
    m_rst      : fptr_sPI  (* Pointer to controller's reset function *)
  }.

Definition set_fIn (v : F) (s : tPI) : tPI :=
    mk (fDtSec s) v (fKp s) (fKi s) (fUpOutLim s) (fLowOutLim s) (fPout s)
       (fIout s) (fIprevIn s) (fIprevOut s) (fOut s) (m_calc s) (m_rst s).
Definition set_fPout (v : F) (s : tPI) : tPI :=
    mk (fDtSec s) (fIn s) (fKp s) (fKi s) (fUpOutLim s) (fLowOutLim s) v
       (fIout s) (fIprevIn s) (fIprevOut s) (fOut s) (m_calc s) (m_rst s).
Definition set_fIout (v : F) (s : tPI) : tPI :=
    mk (fDtSec s) (fIn s) (fKp s) (fKi s) (fUpOutLim s) (fLowOutLim s) (fPout s)
       v (fIprevIn s) (fIprevOut s) (fOut s) (m_calc s) (m_rst s).
Definition set_fIprevIn (v : F) (s : tPI) : tPI :=
    mk (fDtSec s) (fIn s) (fKp s) (fKi s) (fUpOutLim s) (fLowOutLim s) (fPout s)
       (fIout s) v (fIprevOut s) (fOut s) (m_calc s) (m_rst s).
Definition set_fIprevOut (v : F) (s : tPI) : tPI :=
    mk (fDtSec s) (fIn s) (fKp s) (fKi s) (fUpOutLim s) (fLowOutLim s) (fPout s)
       (fIout s) (fIprevIn s) v (fOut s) (m_calc s) (m_rst s).
Definition set_fOut (v : F) (s : tPI) : tPI :=
    mk (fDtSec s) (fIn s) (fKp s) (fKi s) (fUpOutLim s) (fLowOutLim s) (fPout s)
       (fIout s) (fIprevIn s) (fIprevOut s) v (m_calc s) (m_rst s).
End Fields.
End sPI.

Module sPD.
Section Fields.
Variable F : Type.

Record tPD : Type := mk {
    fDtSec     : F;        (* Discretization time, Sec *)
    fIn        : F;        (* Controller's input *)
    fKp        : F;        (* Proportional coefficient value *)
    fKd        : F;        (* Derivative coefficient value *)
    fUpOutLim  : F;        (* Controller's output upper limit *)
    fLowOutLim : F;        (* Controller's output lower limit *)
    fPout      : F;        (* Proportional link's output *)
    fDout      : F;        (* Derivative link's output *)
    fDprevIn   : F;        (* Derivative link's previous input *)
    fDprevOut  : F;        (* Derivative link's previous output *)
    fOut       : F;        (* Controller's output *)
    m_calc     : fptr_sPD; (* Pointer to controller's out calculator *)
    m_rst      : fptr_sPD  (* Pointer to controller's reset function *)
  }.

Definition set_fIn (v : F) (s : tPD) : tPD :=
    mk (fDtSec s) v (fKp s) (fKd s) (fUpOutLim s) (fLowOutLim s) (fPout s)
       (fDout s) (fDprevIn s) (fDprevOut s) (fOut s) (m_calc s) (m_rst s).
Definition set_fPout (v : F) (s : tPD) : tPD :=
    mk (fDtSec s) (fIn s) (fKp s) (fKd s) (fUpOutLim s) (fLowOutLim s) v
       (fDout s) (fDprevIn s) (fDprevOut s) (fOut s) (m_calc s) (m_rst s).
Definition set_fDout (v : F) (s : tPD) : tPD :=
    mk (fDtSec s) (fIn s) (fKp s) (fKd s) (fUpOutLim s) (fLowOutLim s) (fPout s)
       v (fDprevIn s) (fDprevOut s) (fOut s) (m_calc s) (m_rst s).
Definition set_fDprevIn (v : F) (s : tPD) : tPD :=
    mk (fDtSec s) (fIn s) (fKp s) (fKd s) (fUpOutLim s) (fLowOutLim s) (fPout s)
       (fDout s) v (fDprevOut s) (fOut s) (m_calc s) (m_rst s).
Definition set_fDprevOut (v : F) (s : tPD) : tPD :=
    mk (fDtSec s) (fIn s) (fKp s) (fKd s) (fUpOutLim s) (fLowOutLim s) (fPout s)
       (fDout s) (fDprevIn s) v (fOut s) (m_calc s) (m_rst s).
Definition set_fOut (v : F) (s : tPD) : tPD :=
    mk (fDtSec s) (fIn s) (fKp s) (fKd s) (fUpOutLim s) (fLowOutLim s) (fPout s)
       (fDout s) (fDprevIn s) (fDprevOut s) v (m_calc s) (m_rst s).
End Fields.
End sPD.

Module sPID.
Section Fields.
Variable F : Type.

Record tPID : Type := mk {
    fDtSec     : F;         (* Discretization time, Sec *)
    fIn        : F;         (* Controller's input *)
    fKp        : F;         (* Proportional coefficient value *)
    fKi        : F;         (* Integral coefficient value *)
    fKd        : F;         (* Derivative coefficient value *)
    fUpOutLim  : F;         (* Controller's output upper limit *)
    fLowOutLim : F;         (* Controller's output lower limit *)
    fPout      : F;         (* Proportional link's output *)
    fIout      : F;         (* Integral link's output *)
    fDout      : F;         (* Derivative link's output *)
    fIprevIn   : F;         (* Integral link's previous input *)
    fIprevOut  : F;         (* Integral link's previous output *)
    fDprevIn   : F;         (* Derivative link's previous input *)
    fDprevOut  : F;         (* Derivative link's previous output *)
    fOut       : F;         (* Controller's output *)
    m_calc     : fptr_sPID; (* Pointer to controller's out calculator *)
    m_rst      : fptr_sPID  (* Pointer to controller's reset function *)
  }.

Definition set_fIn (v : F) (s : tPID) : tPID :=
    mk (fDtSec s) v (fKp s) (fKi s) (fKd s) (fUpOutLim s) (fLowOutLim s)
       (fPout s) (fIout s) (fDout s) (fIprevIn s) (fIprevOut s) (fDprevIn s)
       (fDprevOut s) (fOut s) (m_calc s) (m_rst s).
Definition set_fPout (v : F) (s : tPID) : tPID :=
    mk (fDtSec s) (fIn s) (fKp s) (fKi s) (fKd s) (fUpOutLim s) (fLowOutLim s)
       v (fIout s) (fDout s) (fIprevIn s) (fIprevOut s) (fDprevIn s)
       (fDprevOut s) (fOut s) (m_calc s) (m_rst s).
Definition set_fIout (v : F) (s : tPID) : tPID :=
    mk (fDtSec s) (fIn s) (fKp s) (fKi s) (fKd s) (fUpOutLim s) (fLowOutLim s)
       (fPout s) v (fDout s) (fIprevIn s) (fIprevOut s) (fDprevIn s)
       (fDprevOut s) (fOut s) (m_calc s) (m_rst s).
Definition set_fDout (v : F) (s : tPID) : tPID :=
    mk (fDtSec s) (fIn s) (fKp s) (fKi s) (fKd s) (fUpOutLim s) (fLowOutLim s)
       (fPout s) (fIout s) v (fIprevIn s) (fIprevOut s) (fDprevIn s)
       (fDprevOut s) (fOut s) (m_calc s) (m_rst s).
Definition set_fIprevIn (v : F) (s : tPID) : tPID :=
    mk (fDtSec s) (fIn s) (fKp s) (fKi s) (fKd s) (fUpOutLim s) (fLowOutLim s)
       (fPout s) (fIout s) (fDout s) v (fIprevOut s) (fDprevIn s)
       (fDprevOut s) (fOut s) (m_calc s) (m_rst s).
Definition set_fIprevOut (v : F) (s : tPID) : tPID :=
    mk (fDtSec s) (fIn s) (fKp s) (fKi s) (fKd s) (fUpOutLim s) (fLowOutLim s)
       (fPout s) (fIout s) (fDout s) (fIprevIn s) v (fDprevIn s)
       (fDprevOut s) (fOut s) (m_calc s) (m_rst s).
Definition set_fDprevIn (v : F) (s : tPID) : tPID :=
    mk (fDtSec s) (fIn s) (fKp s) (fKi s) (fKd s) (fUpOutLim s) (fLowOutLim s)
       (fPout s) (fIout s) (fDout s) (fIprevIn s) (fIprevOut s) v
       (fDprevOut s) (fOut s) (m_calc s) (m_rst s).
Definition set_fDprevOut (v : F) (s : tPID) : tPID :=
    mk (fDtSec s) (fIn s) (fKp s) (fKi s) (fKd s) (fUpOutLim s) (fLowOutLim s)
       (fPout s) (fIout s) (fDout s) (fIprevIn s) (fIprevOut s) (fDprevIn s)
       v (fOut s) (m_calc s) (m_rst s).
Definition set_fOut (v : F) (s : tPID) : tPID :=
    mk (fDtSec s) (fIn s) (fKp s) (fKi s) (fKd s) (fUpOutLim s) (fLowOutLim s)
       (fPout s) (fIout s) (fDout s) (fIprevIn s) (fIprevOut s) (fDprevIn s)
       (fDprevOut s) v (m_calc s) (m_rst s).
End Fields.
End sPID.

Abbreviation tP := sP.tP.
Abbreviation tPI := sPI.tPI.
Abbreviation tPD := sPD.tPD.
Abbreviation tPID := sPID.tPID.

(** ** fp_pid.c: the controller functions *)

Section FpPid.
Context {F : Type} {FA : FloatArith F}.
Local Open Scope cfloat_scope.

  (** The two saturation statements shared by every [_calc]:
      [if(fPreOut > up) fPreOut = up; if(fPreOut < low) fPreOut = low;] *)
Definition saturate (fPreOut fUpOutLim fLowOutLim : F) : F :=
    let fPreOut := if fPreOut >? fUpOutLim then fUpOutLim else fPreOut in
    let fPreOut := if fPreOut <? fLowOutLim then fLowOutLim else fPreOut in
    fPreOut.

Definition tP_calc (ptP : tP F) : tP F :=
    let fPreOut := sP.fIn ptP * sP.fKp ptP in
    let fPreOut := saturate fPreOut (sP.fUpOutLim ptP) (sP.fLowOutLim ptP) in
    sP.set_fOut fPreOut ptP.

Definition tP_rst (ptP : tP F) : tP F :=
    let ptP := sP.set_fIn f0 ptP in
    let ptP := sP.set_fOut f0 ptP in
    ptP.

  (** The value of the local [fPreOut] of [tPI_calc] before the two
      saturation statements, read off the record on return. *)
Definition tPI_preOut (ptPI : tPI F) : F := sPI.fPout ptPI + sPI.fIout ptPI.

Definition tPI_calc (ptPI : tPI F) : tPI F :=
    let ptPI := sPI.set_fPout (sPI.fIn ptPI * sPI.fKp ptPI) ptPI in
    let ptPI := sPI.set_fIout
      (sPI.fIprevOut ptPI + f0_5 * sPI.fDtSec ptPI *
         (sPI.fPout ptPI * sPI.fKi ptPI + sPI.fIprevIn ptPI)) ptPI in
    let ptPI := sPI.set_fIprevIn (sPI.fPout ptPI) ptPI in
    let ptPI := sPI.set_fIprevOut (sPI.fIout ptPI) ptPI in
    let fPreOut := sPI.fPout ptPI + sPI.fIout ptPI in
    let fPreOut := saturate fPreOut (sPI.fUpOutLim ptPI) (sPI.fLowOutLim ptPI) in
    sPI.set_fOut fPreOut ptPI.

Definition tPI_rst (ptPI : tPI F) : tPI F :=
    let ptPI := sPI.set_fIn f0 ptPI in
    let ptPI := sPI.set_fIout f0 ptPI in
    let ptPI := sPI.set_fIprevIn f0 ptPI in
    let ptPI := sPI.set_fIprevOut f0 ptPI in
    let ptPI := sPI.set_fOut f0 ptPI in
    let ptPI := sPI.set_fPout f0 ptPI in
    ptPI.

Definition tPD_calc (ptPD : tPD F) : tPD F :=
    let ptPD := sPD.set_fPout (sPD.fIn ptPD * sPD.fKp ptPD) ptPD in
    let ptPD := sPD.set_fDout
      ((sPD.fPout ptPD * sPD.fKd ptPD - sPD.fDprevIn ptPD) / sPD.fDtSec ptPD)
      ptPD in
    let ptPD := sPD.set_fDprevIn (sPD.fPout ptPD) ptPD in
    let ptPD := sPD.set_fDprevOut (sPD.fDout ptPD) ptPD in
    let fPreOut := sPD.fPout ptPD + sPD.fDout ptPD in
    let fPreOut := saturate fPreOut (sPD.fUpOutLim ptPD) (sPD.fLowOutLim ptPD) in
    sPD.set_fOut fPreOut ptPD.

Definition tPD_rst (ptPD : tPD F) : tPD F :=
    let ptPD := sPD.set_fDout f0 ptPD in
    let ptPD := sPD.set_fDprevIn f0 ptPD in
    let ptPD := sPD.set_fDprevOut f0 ptPD in
    let ptPD := sPD.set_fIn f0 ptPD in
    let ptPD := sPD.set_fOut f0 ptPD in
    let ptPD := sPD.set_fPout f0 ptPD in
    ptPD.

Definition tPID_calc (ptPID : tPID F) : tPID F :=
    let ptPID := sPID.set_fPout (sPID.fIn ptPID * sPID.fKp ptPID) ptPID in
    let ptPID := sPID.set_fIout
      (sPID.fIprevOut ptPID + f0_5 * sPID.fDtSec ptPID *
         (sPID.fPout ptPID * sPID.fKi ptPID + sPID.fIprevIn ptPID)) ptPID in
    let ptPID := sPID.set_fIprevIn (sPID.fPout ptPID) ptPID in
    let ptPID := sPID.set_fIprevOut (sPID.fIout ptPID) ptPID in
    let ptPID := sPID.set_fDout
      ((sPID.fPout ptPID * sPID.fKd ptPID - sPID.fDprevIn ptPID)
         / sPID.fDtSec ptPID) ptPID in
    let ptPID := sPID.set_fDprevIn (sPID.fPout ptPID) ptPID in
    let ptPID := sPID.set_fDprevOut (sPID.fDout ptPID) ptPID in
    let fPreOut := sPID.fPout ptPID + sPID.fIout ptPID + sPID.fDout ptPID in
    let fPreOut :=
      saturate fPreOut (sPID.fUpOutLim ptPID) (sPID.fLowOutLim ptPID) in
    sPID.set_fOut fPreOut ptPID.

Definition tPID_rst (ptPID : tPID F) : tPID F :=
    let ptPID := sPID.set_fDout f0 ptPID in
    let ptPID := sPID.set_fDprevIn f0 ptPID in
    let ptPID := sPID.set_fDprevOut f0 ptPID in
    let ptPID := sPID.set_fIn f0 ptPID in
    let ptPID := sPID.set_fIout f0 ptPID in
    let ptPID := sPID.set_fIprevIn f0 ptPID in
    let ptPID := sPID.set_fIprevOut f0 ptPID in
    let ptPID := sPID.set_fOut f0 ptPID in
    let ptPID := sPID.set_fPout f0 ptPID in
    ptPID.

  (** A call through a function pointer field: [p->m_calc(p)]. *)
Definition call_sP (f : fptr_sP) (ptP : tP F) : tP F :=
    match f with Fn_tP_calc => tP_calc ptP | Fn_tP_rst => tP_rst ptP end.
Definition call_sPI (f : fptr_sPI) (ptPI : tPI F) : tPI F :=
    match f with Fn_tPI_calc => tPI_calc ptPI | Fn_tPI_rst => tPI_rst ptPI end.
Definition call_sPD (f : fptr_sPD) (ptPD : tPD F) : tPD F :=
    match f with Fn_tPD_calc => tPD_calc ptPD | Fn_tPD_rst => tPD_rst ptPD end.
Definition call_sPID (f : fptr_sPID) (ptPID : tPID F) : tPID F :=
    match f with
    | Fn_tPID_calc => tPID_calc ptPID
    | Fn_tPID_rst => tPID_rst ptPID
    end.

  (** [PI_DEFAULTS] *)
Definition PI_DEFAULTS : tPI F := {|
    sPI.fDtSec := f1;  sPI.fIn := f0;  sPI.fOut := f0;
    sPI.fKp := f0;  sPI.fKi := f0;
    sPI.fUpOutLim := f0;  sPI.fLowOutLim := f0;
    sPI.fPout := f0;  sPI.fIout := f0;
    sPI.fIprevIn := f0;  sPI.fIprevOut := f0;
    sPI.m_calc := Fn_tPI_calc;  sPI.m_rst := Fn_tPI_rst
  |}.
End FpPid.

(** ** im_estimators.h: the estimator records *)

(** Pointers to a function taking a [struct sIMparams] pointer. *)
Inductive fptr_sIMparams : Type := Fn_tIMparams_init.
(** Pointers to a function taking a [struct sIMstatObs] pointer and a
    [tIMparams] pointer. *)
Inductive fptr_sIMstatObs : Type := Fn_tIMstatObs_calc.
(** Pointers to a function taking a [struct sIMrotObs] pointer and a
    [tIMparams] pointer. *)
Inductive fptr_sIMrotObs : Type := Fn_tIMrotObs_calc.
(** Pointers to a function taking a [struct sIMspeedObs] pointer and a
    [tIMparams] pointer. *)
Inductive fptr_sIMspeedObs : Type := Fn_tIMspeedObs_calc.

Module sIMparams.
Section Fields.
Variable F : Type.

Record tIMparams : Type := mk {
  fDt     : F;             (* Discretization time, Sec *)
  fNpP    : F;             (* Count of pole pairs *)
  fRs     : F;             (* Stator resistance, Ohm *)
  fRr     : F;             (* Rotor resistance, Ohm *)
  fLs     : F;             (* Stator inductance, H *)
  fLr     : F;             (* Rotor inductance, H *)
  fLm     : F;             (* Magnetizing inductance, H *)
  f1divTr : F;             (* fRr/fLr *)
  f1divKr : F;             (* fLr/fLm *)
  fSigLs  : F;             (* (1 - (fLm^2)/(fLs*fLr)) * fLs *)
  m_init  : fptr_sIMparams (* Pointer to Init() function *)
}.

Definition set_f1divTr (v : F) (s : tIMparams) : tIMparams :=
  mk (fDt s) (fNpP s) (fRs s) (fRr s) (fLs s) (fLr s) (fLm s)
     v (f1divKr s) (fSigLs s) (m_init s).
Definition set_f1divKr (v : F) (s : tIMparams) : tIMparams :=
  mk (fDt s) (fNpP s) (fRs s) (fRr s) (fLs s) (fLr s) (fLm s)
     (f1divTr s) v (fSigLs s) (m_init s).
Definition set_fSigLs (v : F) (s : tIMparams) : tIMparams :=
  mk (fDt s) (fNpP s) (fRs s) (fRr s) (fLs s) (fLr s) (fLm s)
     (f1divTr s) (f1divKr s) v (m_init s).
End Fields.
End sIMparams.

Module sIMstatObs.
Section Fields.
Variable F : Type.

Record tIMstatObs : Type := mk {
  fIsAl     : F;            (* Stator current Alpha, A *)
  fIsBe     : F;            (* Stator current Beta, A *)
  fUsAl     : F;            (* Stator voltage Alpha, Volts *)
  fUsBe     : F;            (* Stator voltage Beta, Volts *)
  fPrevIsAl : F;            (* Previous value of stator current Alpha, A *)
  fPrevIsBe : F;            (* Previous value of stator current Beta, A *)
  fEsAl     : F;            (* Stator back-EMF Alpha, Volts *)
  fEsBe     : F;            (* Stator back-EMF Beta, Volts *)
  m_calc    : fptr_sIMstatObs (* Pointer to estimator function *)
}.

Definition set_fIsAl (v : F) (s : tIMstatObs) : tIMstatObs :=
  mk v (fIsBe s) (fUsAl s) (fUsBe s) (fPrevIsAl s) (fPrevIsBe s)
     (fEsAl s) (fEsBe s) (m_calc s).
Definition set_fIsBe (v : F) (s : tIMstatObs) : tIMstatObs :=
  mk (fIsAl s) v (fUsAl s) (fUsBe s) (fPrevIsAl s) (fPrevIsBe s)
     (fEsAl s) (fEsBe s) (m_calc s).
Definition set_fUsAl (v : F) (s : tIMstatObs) : tIMstatObs :=
  mk (fIsAl s) (fIsBe s) v (fUsBe s) (fPrevIsAl s) (fPrevIsBe s)
     (fEsAl s) (fEsBe s) (m_calc s).
Definition set_fUsBe (v : F) (s : tIMstatObs) : tIMstatObs :=
  mk (fIsAl s) (fIsBe s) (fUsAl s) v (fPrevIsAl s) (fPrevIsBe s)
     (fEsAl s) (fEsBe s) (m_calc s).
Definition set_fPrevIsAl (v : F) (s : tIMstatObs) : tIMstatObs :=
  mk (fIsAl s) (fIsBe s) (fUsAl s) (fUsBe s) v (fPrevIsBe s)
     (fEsAl s) (fEsBe s) (m_calc s).
Definition set_fPrevIsBe (v : F) (s : tIMstatObs) : tIMstatObs :=
  mk (fIsAl s) (fIsBe s) (fUsAl s) (fUsBe s) (fPrevIsAl s) v
     (fEsAl s) (fEsBe s) (m_calc s).
Definition set_fEsAl (v : F) (s : tIMstatObs) : tIMstatObs :=
  mk (fIsAl s) (fIsBe s) (fUsAl s) (fUsBe s) (fPrevIsAl s) (fPrevIsBe s)
     v (fEsBe s) (m_calc s).
Definition set_fEsBe (v : F) (s : tIMstatObs) : tIMstatObs :=
  mk (fIsAl s) (fIsBe s) (fUsAl s) (fUsBe s) (fPrevIsAl s) (fPrevIsBe s)
     (fEsAl s) v (m_calc s).
End Fields.
End sIMstatObs.

Module sIMrotObs.
Section Fields.
Variable F : Type.

Record tIMrotObs : Type := mk {
  fIsAl     : F;            (* Stator current Alpha, A *)
  fIsBe     : F;            (* Stator current Beta, A *)
  fWrE      : F;            (* Rotor electrical speed, Rad/Sec *)
  fPrevErAl : F;            (* Previous value of rotor back-EMF Alpha, Volts *)
  fPrevErBe : F;            (* Previous value of rotor back-EMF Beta, Volts *)
  fPrevFrAl : F;            (* Previous value of rotor flux Alpha, Wb *)
  fPrevFrBe : F;            (* Previous value of rotor flux Beta, Wb *)
  fFrAl     : F;            (* Rotor flux Alpha, Wb *)
  fFrBe     : F;            (* Rotor flux Beta, Wb *)
  fErAl     : F;            (* Rotor back-EMF Alpha, Volts *)
  fErBe     : F;            (* Rotor back-EMF Beta, Volts *)
  m_calc    : fptr_sIMrotObs (* Pointer to estimator function *)
}.

Definition set_fIsAl (v : F) (s : tIMrotObs) : tIMrotObs :=
  mk v (fIsBe s) (fWrE s) (fPrevErAl s) (fPrevErBe s) (fPrevFrAl s)
     (fPrevFrBe s) (fFrAl s) (fFrBe s) (fErAl s) (fErBe s) (m_calc s).
Definition set_fIsBe (v : F) (s : tIMrotObs) : tIMrotObs :=
  mk (fIsAl s) v (fWrE s) (fPrevErAl s) (fPrevErBe s) (fPrevFrAl s)
     (fPrevFrBe s) (fFrAl s) (fFrBe s) (fErAl s) (fErBe s) (m_calc s).
Definition set_fWrE (v : F) (s : tIMrotObs) : tIMrotObs :=
  mk (fIsAl s) (fIsBe s) v (fPrevErAl s) (fPrevErBe s) (fPrevFrAl s)
     (fPrevFrBe s) (fFrAl s) (fFrBe s) (fErAl s) (fErBe s) (m_calc s).
Definition set_fPrevErAl (v : F) (s : tIMrotObs) : tIMrotObs :=
  mk (fIsAl s) (fIsBe s) (fWrE s) v (fPrevErBe s) (fPrevFrAl s)
     (fPrevFrBe s) (fFrAl s) (fFrBe s) (fErAl s) (fErBe s) (m_calc s).
Definition set_fPrevErBe (v : F) (s : tIMrotObs) : tIMrotObs :=
  mk (fIsAl s) (fIsBe s) (fWrE s) (fPrevErAl s) v (fPrevFrAl s)
     (fPrevFrBe s) (fFrAl s) (fFrBe s) (fErAl s) (fErBe s) (m_calc s).
Definition set_fPrevFrAl (v : F) (s : tIMrotObs) : tIMrotObs :=
  mk (fIsAl s) (fIsBe s) (fWrE s) (fPrevErAl s) (fPrevErBe s) v
     (fPrevFrBe s) (fFrAl s) (fFrBe s) (fErAl s) (fErBe s) (m_calc s).
Definition set_fPrevFrBe (v : F) (s : tIMrotObs) : tIMrotObs :=
  mk (fIsAl s) (fIsBe s) (fWrE s) (fPrevErAl s) (fPrevErBe s) (fPrevFrAl s)
     v (fFrAl s) (fFrBe s) (fErAl s) (fErBe s) (m_calc s).
Definition set_fFrAl (v : F) (s : tIMrotObs) : tIMrotObs :=
  mk (fIsAl s) (fIsBe s) (fWrE s) (fPrevErAl s) (fPrevErBe s) (fPrevFrAl s)
     (fPrevFrBe s) v (fFrBe s) (fErAl s) (fErBe s) (m_calc s).
Definition set_fFrBe (v : F) (s : tIMrotObs) : tIMrotObs :=
  mk (fIsAl s) (fIsBe s) (fWrE s) (fPrevErAl s) (fPrevErBe s) (fPrevFrAl s)
     (fPrevFrBe s) (fFrAl s) v (fErAl s) (fErBe s) (m_calc s).
Definition set_fErAl (v : F) (s : tIMrotObs) : tIMrotObs :=
  mk (fIsAl s) (fIsBe s) (fWrE s) (fPrevErAl s) (fPrevErBe s) (fPrevFrAl s)
     (fPrevFrBe s) (fFrAl s) (fFrBe s) v (fErBe s) (m_calc s).
Definition set_fErBe (v : F) (s : tIMrotObs) : tIMrotObs :=
  mk (fIsAl s) (fIsBe s) (fWrE s) (fPrevErAl s) (fPrevErBe s) (fPrevFrAl s)
     (fPrevFrBe s) (fFrAl s) (fFrBe s) (fErAl s) v (m_calc s).
End Fields.
End sIMrotObs.

Abbreviation tIMparams := sIMparams.tIMparams.
Abbreviation tIMstatObs := sIMstatObs.tIMstatObs.
Abbreviation tIMrotObs := sIMrotObs.tIMrotObs.

Module sIMspeedObs.
Section Fields.
Variable F : Type.

Record tIMspeedObs : Type := mk {
  fUsAl      : F;             (* Stator voltage Alpha, Volts *)
  fUsBe      : F;             (* Stator voltage Beta, Volts *)
  fIsAl      : F;             (* Stator current Alpha, A *)
  fIsBe      : F;             (* Stator current Beta, A *)
  sIMstatObs : tIMstatObs F;  (* Stator observer data structure *)
  sIMrotObs  : tIMrotObs F;   (* Rotor observer data structure *)
  sPI        : tPI F;         (* PI-controller data structure *)
  fWrE       : F;             (* Rotor electrical speed, Rad/Sec *)
  fFrAng     : F;             (* Rotor flux angle, Rad *)
  fFrMagn    : F;             (* Rotor flux magnitude, Wb *)
  m_calc     : fptr_sIMspeedObs (* Pointer to estimator function *)
}.

Definition set_fUsAl (v : F) (s : tIMspeedObs) : tIMspeedObs :=
  mk v (fUsBe s) (fIsAl s) (fIsBe s) (sIMstatObs s) (sIMrotObs s) (sPI s)
     (fWrE s) (fFrAng s) (fFrMagn s) (m_calc s).
Definition set_fUsBe (v : F) (s : tIMspeedObs) : tIMspeedObs :=
  mk (fUsAl s) v (fIsAl s) (fIsBe s) (sIMstatObs s) (sIMrotObs s) (sPI s)
     (fWrE s) (fFrAng s) (fFrMagn s) (m_calc s).
Definition set_fIsAl (v : F) (s : tIMspeedObs) : tIMspeedObs :=
  mk (fUsAl s) (fUsBe s) v (fIsBe s) (sIMstatObs s) (sIMrotObs s) (sPI s)
     (fWrE s) (fFrAng s) (fFrMagn s) (m_calc s).
Definition set_fIsBe (v : F) (s : tIMspeedObs) : tIMspeedObs :=
  mk (fUsAl s) (fUsBe s) (fIsAl s) v (sIMstatObs s) (sIMrotObs s) (sPI s)
     (fWrE s) (fFrAng s) (fFrMagn s) (m_calc s).
Definition set_sIMstatObs (v : tIMstatObs F) (s : tIMspeedObs) : tIMspeedObs :=
  mk (fUsAl s) (fUsBe s) (fIsAl s) (fIsBe s) v (sIMrotObs s) (sPI s)
     (fWrE s) (fFrAng s) (fFrMagn s) (m_calc s).
Definition set_sIMrotObs (v : tIMrotObs F) (s : tIMspeedObs) : tIMspeedObs :=
  mk (fUsAl s) (fUsBe s) (fIsAl s) (fIsBe s) (sIMstatObs s) v (sPI s)
     (fWrE s) (fFrAng s) (fFrMagn s) (m_calc s).
Definition set_sPI (v : tPI F) (s : tIMspeedObs) : tIMspeedObs :=
  mk (fUsAl s) (fUsBe s) (fIsAl s) (fIsBe s) (sIMstatObs s) (sIMrotObs s) v
     (fWrE s) (fFrAng s) (fFrMagn s) (m_calc s).
Definition set_fWrE (v : F) (s : tIMspeedObs) : tIMspeedObs :=
  mk (fUsAl s) (fUsBe s) (fIsAl s) (fIsBe s) (sIMstatObs s) (sIMrotObs s)
     (sPI s) v (fFrAng s) (fFrMagn s) (m_calc s).
Definition set_fFrAng (v : F) (s : tIMspeedObs) : tIMspeedObs :=
  mk (fUsAl s) (fUsBe s) (fIsAl s) (fIsBe s) (sIMstatObs s) (sIMrotObs s)
     (sPI s) (fWrE s) v (fFrMagn s) (m_calc s).
Definition set_fFrMagn (v : F) (s : tIMspeedObs) : tIMspeedObs :=
  mk (fUsAl s) (fUsBe s) (fIsAl s) (fIsBe s) (sIMstatObs s) (sIMrotObs s)
     (sPI s) (fWrE s) (fFrAng s) v (m_calc s).
End Fields.
End sIMspeedObs.

Abbreviation tIMspeedObs := sIMspeedObs.tIMspeedObs.

(** The two functions of [<math.h>] the estimators call.  Their code is not
    part of the library: they are a parameter of the embedding. *)
Class LibM (F : Type) : Type := {
  atan2f : F -> F -> F;
  hypotf : F -> F -> F
}.

(** ** im_estimators.c: the estimator functions *)

Section ImEstimators.
Context {F : Type} {FA : FloatArith F}.
Local Open Scope cfloat_scope.

Definition tIMparams_init (ptIMparams : tIMparams F) : tIMparams F :=
  let ptIMparams := sIMparams.set_f1divTr
    (sIMparams.fRr ptIMparams / sIMparams.fLr ptIMparams) ptIMparams in
  let ptIMparams := sIMparams.set_f1divKr
    (sIMparams.fLr ptIMparams / sIMparams.fLm ptIMparams) ptIMparams in
  let ptIMparams := sIMparams.set_fSigLs
    ((f1 - sIMparams.fLm ptIMparams * sIMparams.fLm ptIMparams /
            (sIMparams.fLs ptIMparams * sIMparams.fLr ptIMparams))
     * sIMparams.fLs ptIMparams) ptIMparams in
  ptIMparams.

Definition tIMstatObs_calc (ptIMstatObs : tIMstatObs F)
    (ptIMparams : tIMparams F) : tIMstatObs F :=
  let fDiffIsAl :=
    (sIMstatObs.fIsAl ptIMstatObs - sIMstatObs.fPrevIsAl ptIMstatObs)
      / sIMparams.fDt ptIMparams in
  let ptIMstatObs :=
    sIMstatObs.set_fPrevIsAl (sIMstatObs.fIsAl ptIMstatObs) ptIMstatObs in
  let fDiffIsBe :=
    (sIMstatObs.fIsBe ptIMstatObs - sIMstatObs.fPrevIsBe ptIMstatObs)
      / sIMparams.fDt ptIMparams in
  let ptIMstatObs :=
    sIMstatObs.set_fPrevIsBe (sIMstatObs.fIsBe ptIMstatObs) ptIMstatObs in
  let ptIMstatObs := sIMstatObs.set_fEsAl
    ((sIMstatObs.fUsAl ptIMstatObs
        - sIMparams.fRs ptIMparams * sIMstatObs.fIsAl ptIMstatObs
        - sIMparams.fSigLs ptIMparams * fDiffIsAl)
     * sIMparams.f1divKr ptIMparams) ptIMstatObs in
  let ptIMstatObs := sIMstatObs.set_fEsBe
    ((sIMstatObs.fUsBe ptIMstatObs
        - sIMparams.fRs ptIMparams * sIMstatObs.fIsBe ptIMstatObs
        - sIMparams.fSigLs ptIMparams * fDiffIsBe)
     * sIMparams.f1divKr ptIMparams) ptIMstatObs in
  ptIMstatObs.

Definition tIMrotObs_calc (ptIMrotObs : tIMrotObs F)
    (ptIMparams : tIMparams F) : tIMrotObs F :=
  let ptIMrotObs := sIMrotObs.set_fErAl
    ((sIMrotObs.fIsAl ptIMrotObs * sIMparams.fLm ptIMparams
        - sIMrotObs.fFrAl ptIMrotObs) * sIMparams.f1divTr ptIMparams
     - sIMrotObs.fWrE ptIMrotObs * sIMrotObs.fFrBe ptIMrotObs) ptIMrotObs in
  let ptIMrotObs := sIMrotObs.set_fFrAl
    (sIMrotObs.fPrevFrAl ptIMrotObs + f0_5 * sIMparams.fDt ptIMparams *
       (sIMrotObs.fErAl ptIMrotObs + sIMrotObs.fPrevErAl ptIMrotObs))
    ptIMrotObs in
  let ptIMrotObs :=
    sIMrotObs.set_fPrevErAl (sIMrotObs.fErAl ptIMrotObs) ptIMrotObs in
  let ptIMrotObs :=
    sIMrotObs.set_fPrevFrAl (sIMrotObs.fFrAl ptIMrotObs) ptIMrotObs in
  let ptIMrotObs := sIMrotObs.set_fErBe
    ((sIMrotObs.fIsBe ptIMrotObs * sIMparams.fLm ptIMparams
        - sIMrotObs.fFrBe ptIMrotObs) * sIMparams.f1divTr ptIMparams
     + sIMrotObs.fWrE ptIMrotObs * sIMrotObs.fFrAl ptIMrotObs) ptIMrotObs in
  let ptIMrotObs := sIMrotObs.set_fFrBe
    (sIMrotObs.fPrevFrBe ptIMrotObs + f0_5 * sIMparams.fDt ptIMparams *
       (sIMrotObs.fErBe ptIMrotObs + sIMrotObs.fPrevErBe ptIMrotObs))
    ptIMrotObs in
  let ptIMrotObs :=
    sIMrotObs.set_fPrevErBe (sIMrotObs.fErBe ptIMrotObs) ptIMrotObs in
  let ptIMrotObs :=
    sIMrotObs.set_fPrevFrBe (sIMrotObs.fFrBe ptIMrotObs) ptIMrotObs in
  ptIMrotObs.

(** Calls through the [m_init] and [m_calc] fields. *)
Definition call_sIMparams (f : fptr_sIMparams) (p : tIMparams F)
    : tIMparams F :=
  match f with Fn_tIMparams_init => tIMparams_init p end.
Definition call_sIMstatObs (f : fptr_sIMstatObs) (s : tIMstatObs F)
    (p : tIMparams F) : tIMstatObs F :=
  match f with Fn_tIMstatObs_calc => tIMstatObs_calc s p end.
Definition call_sIMrotObs (f : fptr_sIMrotObs) (s : tIMrotObs F)
    (p : tIMparams F) : tIMrotObs F :=
  match f with Fn_tIMrotObs_calc => tIMrotObs_calc s p end.

Context {LM : LibM F}.

Definition tIMspeedObs_calc (ptIMspeedObs : tIMspeedObs F)
    (ptIMparams : tIMparams F) : tIMspeedObs F :=
  let ptIMspeedObs := sIMspeedObs.set_sIMstatObs
    (sIMstatObs.set_fUsAl (sIMspeedObs.fUsAl ptIMspeedObs)
       (sIMspeedObs.sIMstatObs ptIMspeedObs)) ptIMspeedObs in
  let ptIMspeedObs := sIMspeedObs.set_sIMstatObs
    (sIMstatObs.set_fUsBe (sIMspeedObs.fUsBe ptIMspeedObs)
       (sIMspeedObs.sIMstatObs ptIMspeedObs)) ptIMspeedObs in
  let ptIMspeedObs := sIMspeedObs.set_sIMstatObs
    (sIMstatObs.set_fIsAl (sIMspeedObs.fIsAl ptIMspeedObs)
       (sIMspeedObs.sIMstatObs ptIMspeedObs)) ptIMspeedObs in
  let ptIMspeedObs := sIMspeedObs.set_sIMstatObs
    (sIMstatObs.set_fIsBe (sIMspeedObs.fIsBe ptIMspeedObs)
       (sIMspeedObs.sIMstatObs ptIMspeedObs)) ptIMspeedObs in
  let ptIMspeedObs := sIMspeedObs.set_sIMrotObs
    (sIMrotObs.set_fIsAl (sIMspeedObs.fIsAl ptIMspeedObs)
       (sIMspeedObs.sIMrotObs ptIMspeedObs)) ptIMspeedObs in
  let ptIMspeedObs := sIMspeedObs.set_sIMrotObs
    (sIMrotObs.set_fIsBe (sIMspeedObs.fIsBe ptIMspeedObs)
       (sIMspeedObs.sIMrotObs ptIMspeedObs)) ptIMspeedObs in
  let ptIMspeedObs := sIMspeedObs.set_sIMrotObs
    (sIMrotObs.set_fWrE (sIMspeedObs.fWrE ptIMspeedObs)
       (sIMspeedObs.sIMrotObs ptIMspeedObs)) ptIMspeedObs in
  let ptIMspeedObs := sIMspeedObs.set_sIMstatObs
    (call_sIMstatObs (sIMstatObs.m_calc (sIMspeedObs.sIMstatObs ptIMspeedObs))
       (sIMspeedObs.sIMstatObs ptIMspeedObs) ptIMparams) ptIMspeedObs in
  let ptIMspeedObs := sIMspeedObs.set_sIMrotObs
    (call_sIMrotObs (sIMrotObs.m_calc (sIMspeedObs.sIMrotObs ptIMspeedObs))
       (sIMspeedObs.sIMrotObs ptIMspeedObs) ptIMparams) ptIMspeedObs in
  let ptIMspeedObs := sIMspeedObs.set_sPI
    (sPI.set_fIn
       (sIMspeedObs.fIsAl ptIMspeedObs *
          (sIMstatObs.fEsBe (sIMspeedObs.sIMstatObs ptIMspeedObs)
             - sIMrotObs.fErBe (sIMspeedObs.sIMrotObs ptIMspeedObs))
        - sIMspeedObs.fIsBe ptIMspeedObs *
          (sIMstatObs.fEsAl (sIMspeedObs.sIMstatObs ptIMspeedObs)
             - sIMrotObs.fErAl (sIMspeedObs.sIMrotObs ptIMspeedObs)))
       (sIMspeedObs.sPI ptIMspeedObs)) ptIMspeedObs in
  let ptIMspeedObs := sIMspeedObs.set_sPI
    (call_sPI (sPI.m_calc (sIMspeedObs.sPI ptIMspeedObs))
       (sIMspeedObs.sPI ptIMspeedObs)) ptIMspeedObs in
  let ptIMspeedObs := sIMspeedObs.set_fWrE
    (sPI.fOut (sIMspeedObs.sPI ptIMspeedObs)) ptIMspeedObs in
  let ptIMspeedObs := sIMspeedObs.set_fFrAng
    (atan2f (sIMrotObs.fFrBe (sIMspeedObs.sIMrotObs ptIMspeedObs))
            (sIMrotObs.fFrAl (sIMspeedObs.sIMrotObs ptIMspeedObs)))
    ptIMspeedObs in
  let ptIMspeedObs := sIMspeedObs.set_fFrMagn
    (hypotf (sIMrotObs.fFrBe (sIMspeedObs.sIMrotObs ptIMspeedObs))
            (sIMrotObs.fFrAl (sIMspeedObs.sIMrotObs ptIMspeedObs)))
    ptIMspeedObs in
  ptIMspeedObs.

Definition call_sIMspeedObs (f : fptr_sIMspeedObs) (s : tIMspeedObs F)
    (p : tIMparams F) : tIMspeedObs F :=
  match f with Fn_tIMspeedObs_calc => tIMspeedObs_calc s p end.

(** [IM_PARAMS_DEFAULTS] *)
Definition IM_PARAMS_DEFAULTS : tIMparams F := {|
  sIMparams.fDt := f1;  sIMparams.fNpP := f0;  sIMparams.fRs := f0;
  sIMparams.fRr := f0;  sIMparams.fLs := f0;  sIMparams.fLr := f0;
  sIMparams.fLm := f0;  sIMparams.f1divTr := f0;  sIMparams.f1divKr := f0;
  sIMparams.fSigLs := f0;  sIMparams.m_init := Fn_tIMparams_init
|}.

(** [IM_STAT_OBS_DEFAULTS] *)
Definition IM_STAT_OBS_DEFAULTS : tIMstatObs F := {|
  sIMstatObs.fIsAl := f0;  sIMstatObs.fIsBe := f0;
  sIMstatObs.fUsAl := f0;  sIMstatObs.fUsBe := f0;
  sIMstatObs.fPrevIsAl := f0;  sIMstatObs.fPrevIsBe := f0;
  sIMstatObs.fEsAl := f0;  sIMstatObs.fEsBe := f0;
  sIMstatObs.m_calc := Fn_tIMstatObs_calc
|}.

(** [IM_ROT_OBS_DEFAULTS] *)
Definition IM_ROT_OBS_DEFAULTS : tIMrotObs F := {|
  sIMrotObs.fIsAl := f0;  sIMrotObs.fIsBe := f0;  sIMrotObs.fWrE := f0;
  sIMrotObs.fPrevErAl := f0;  sIMrotObs.fPrevErBe := f0;
  sIMrotObs.fPrevFrAl := f0;  sIMrotObs.fPrevFrBe := f0;
  sIMrotObs.fFrAl := f0;  sIMrotObs.fFrBe := f0;
  sIMrotObs.fErAl := f0;  sIMrotObs.fErBe := f0;
  sIMrotObs.m_calc := Fn_tIMrotObs_calc
|}.

(** [IM_SPEED_OBS_DEFAULTS] *)
Definition IM_SPEED_OBS_DEFAULTS : tIMspeedObs F := {|
  sIMspeedObs.fUsAl := f0;  sIMspeedObs.fUsBe := f0;
  sIMspeedObs.fIsAl := f0;  sIMspeedObs.fIsBe := f0;
  sIMspeedObs.sIMstatObs := IM_STAT_OBS_DEFAULTS;
  sIMspeedObs.sIMrotObs := IM_ROT_OBS_DEFAULTS;
  sIMspeedObs.sPI := PI_DEFAULTS;
  sIMspeedObs.fWrE := f0;  sIMspeedObs.fFrAng := f0;
  sIMspeedObs.fFrMagn := f0;
  sIMspeedObs.m_calc := Fn_tIMspeedObs_calc
|}.

End ImEstimators.

(** ** How a caller drives the library

    The library has no driver of its own: the caller writes the input
    fields of a record and then calls its compute function, once per
    sampling period.  The definitions below fix that protocol. *)

Section Callers.
Context {F : Type} {FA : FloatArith F}.
Local Open Scope cfloat_scope.

(** A PI controller reset and then run [n] times, the caller writing the
    same input [x] before each call. *)
Fixpoint tPI_hold (x : F) (n : nat) (ptPI : tPI F) : tPI F :=
  match n with
  | O => tPI_rst ptPI
  | S k => tPI_calc (sPI.set_fIn x (tPI_hold x k ptPI))
  end.

(** The closed form of the trapezoidal rule for a constant input, in the
    words of the specification: [Kp x + Ki Kp x Dt (n - 1/2)], [n] given as
    a float. *)
Definition tPI_trapezoid_closed_form (ptPI : tPI F) (x n : F) : F :=
  sPI.fKp ptPI * x
  + sPI.fKi ptPI * sPI.fKp ptPI * x * sPI.fDtSec ptPI * (n - f0_5).

(** The states the stator observer can be in: the default record, any
    write of the caller to the four input fields, any call of the compute
    function. *)
Inductive stat_reachable : tIMstatObs F -> Prop :=
| stat_reach_defaults : stat_reachable IM_STAT_OBS_DEFAULTS
| stat_reach_inputs s isAl isBe usAl usBe :
    stat_reachable s ->
    stat_reachable
      (sIMstatObs.set_fUsBe usBe (sIMstatObs.set_fUsAl usAl
         (sIMstatObs.set_fIsBe isBe (sIMstatObs.set_fIsAl isAl s))))
| stat_reach_calc s p :
    stat_reachable s -> stat_reachable (tIMstatObs_calc s p).

(** The same for the rotor observer, whose inputs are the two currents and
    the rotor electrical speed. *)
Inductive rot_reachable : tIMrotObs F -> Prop :=
| rot_reach_defaults : rot_reachable IM_ROT_OBS_DEFAULTS
| rot_reach_inputs s isAl isBe wrE :
    rot_reachable s ->
    rot_reachable
      (sIMrotObs.set_fWrE wrE
         (sIMrotObs.set_fIsBe isBe (sIMrotObs.set_fIsAl isAl s)))
| rot_reach_calc s p :
    rot_reachable s -> rot_reachable (tIMrotObs_calc s p).

(** History equals latest value. *)
Definition stat_history_is_latest (s : tIMstatObs F) : Prop :=
  sIMstatObs.fPrevIsAl s = sIMstatObs.fIsAl s /\
  sIMstatObs.fPrevIsBe s = sIMstatObs.fIsBe s.

Definition rot_history_is_latest (s : tIMrotObs F) : Prop :=
  sIMrotObs.fPrevFrAl s = sIMrotObs.fFrAl s /\
  sIMrotObs.fPrevFrBe s = sIMrotObs.fFrBe s /\
  sIMrotObs.fPrevErAl s = sIMrotObs.fErAl s /\
  sIMrotObs.fPrevErBe s = sIMrotObs.fErBe s.

(** The rotor back-EMF of each axis as it would be if its cross-coupling
    term read the flux of the other axis as the record held it on entry. *)
Definition fErAl_from_entry_flux (s : tIMrotObs F) (p : tIMparams F) : F :=
  (sIMrotObs.fIsAl s * sIMparams.fLm p - sIMrotObs.fFrAl s)
    * sIMparams.f1divTr p
  - sIMrotObs.fWrE s * sIMrotObs.fFrBe s.

Definition fErBe_from_entry_flux (s : tIMrotObs F) (p : tIMparams F) : F :=
  (sIMrotObs.fIsBe s * sIMparams.fLm p - sIMrotObs.fFrBe s)
    * sIMparams.f1divTr p
  + sIMrotObs.fWrE s * sIMrotObs.fFrAl s.

Definition cross_terms_read_entry_flux (s : tIMrotObs F) (p : tIMparams F)
    : Prop :=
  sIMrotObs.fErAl (tIMrotObs_calc s p) = fErAl_from_entry_flux s p /\
  sIMrotObs.fErBe (tIMrotObs_calc s p) = fErBe_from_entry_flux s p.

(** [tIMrotObs_calc] with its two blocks of statements exchanged: the four
    statements of the beta axis first, then the four of the alpha axis. *)
Definition tIMrotObs_calc_beta_first (ptIMrotObs : tIMrotObs F)
    (ptIMparams : tIMparams F) : tIMrotObs F :=
  let ptIMrotObs := sIMrotObs.set_fErBe
    ((sIMrotObs.fIsBe ptIMrotObs * sIMparams.fLm ptIMparams
        - sIMrotObs.fFrBe ptIMrotObs) * sIMparams.f1divTr ptIMparams
     + sIMrotObs.fWrE ptIMrotObs * sIMrotObs.fFrAl ptIMrotObs) ptIMrotObs in
  let ptIMrotObs := sIMrotObs.set_fFrBe
    (sIMrotObs.fPrevFrBe ptIMrotObs + f0_5 * sIMparams.fDt ptIMparams *
       (sIMrotObs.fErBe ptIMrotObs + sIMrotObs.fPrevErBe ptIMrotObs))
    ptIMrotObs in
  let ptIMrotObs :=
    sIMrotObs.set_fPrevErBe (sIMrotObs.fErBe ptIMrotObs) ptIMrotObs in
  let ptIMrotObs :=
    sIMrotObs.set_fPrevFrBe (sIMrotObs.fFrBe ptIMrotObs) ptIMrotObs in
  let ptIMrotObs := sIMrotObs.set_fErAl
    ((sIMrotObs.fIsAl ptIMrotObs * sIMparams.fLm ptIMparams
        - sIMrotObs.fFrAl ptIMrotObs) * sIMparams.f1divTr ptIMparams
     - sIMrotObs.fWrE ptIMrotObs * sIMrotObs.fFrBe ptIMrotObs) ptIMrotObs in
  let ptIMrotObs := sIMrotObs.set_fFrAl
    (sIMrotObs.fPrevFrAl ptIMrotObs + f0_5 * sIMparams.fDt ptIMparams *
       (sIMrotObs.fErAl ptIMrotObs + sIMrotObs.fPrevErAl ptIMrotObs))
    ptIMrotObs in
  let ptIMrotObs :=
    sIMrotObs.set_fPrevErAl (sIMrotObs.fErAl ptIMrotObs) ptIMrotObs in
  let ptIMrotObs :=
    sIMrotObs.set_fPrevFrAl (sIMrotObs.fFrAl ptIMrotObs) ptIMrotObs in
  ptIMrotObs.

(** One sample of measurements: stator voltage and current, alpha and
    beta. *)
Record sample : Type := mk_sample {
  meas_fUsAl : F;
  meas_fUsBe : F;
  meas_fIsAl : F;
  meas_fIsBe : F
}.

(** The caller writes a sample into the four input fields of the speed
    observer. *)
Definition load_sample (x : sample) (s : tIMspeedObs F) : tIMspeedObs F :=
  let s := sIMspeedObs.set_fUsAl (meas_fUsAl x) s in
  let s := sIMspeedObs.set_fUsBe (meas_fUsBe x) s in
  let s := sIMspeedObs.set_fIsAl (meas_fIsAl x) s in
  let s := sIMspeedObs.set_fIsBe (meas_fIsBe x) s in
  s.

(** The stator and rotor observer records of the speed observer after the
    seven copying statements that open [tIMspeedObs_calc]. *)
Definition stat_inputs_loaded (s : tIMspeedObs F) : tIMstatObs F :=
  sIMstatObs.set_fIsBe (sIMspeedObs.fIsBe s)
    (sIMstatObs.set_fIsAl (sIMspeedObs.fIsAl s)
       (sIMstatObs.set_fUsBe (sIMspeedObs.fUsBe s)
          (sIMstatObs.set_fUsAl (sIMspeedObs.fUsAl s)
             (sIMspeedObs.sIMstatObs s)))).

Definition rot_inputs_loaded (s : tIMspeedObs F) : tIMrotObs F :=
  sIMrotObs.set_fWrE (sIMspeedObs.fWrE s)
    (sIMrotObs.set_fIsBe (sIMspeedObs.fIsBe s)
       (sIMrotObs.set_fIsAl (sIMspeedObs.fIsAl s)
          (sIMspeedObs.sIMrotObs s))).

(** The three outputs of the speed observer: speed, flux angle, flux
    magnitude. *)
Definition speed_outputs (s : tIMspeedObs F) : F * F * F :=
  (sIMspeedObs.fWrE s, sIMspeedObs.fFrAng s, sIMspeedObs.fFrMagn s).

(** Two speed observer records agree on every field [tIMspeedObs_calc]
    reads before writing it, apart from the four inputs. *)
Definition same_persistent_state (s1 s2 : tIMspeedObs F) : Prop :=
  sIMspeedObs.fWrE s1 = sIMspeedObs.fWrE s2 /\
  sIMspeedObs.m_calc s1 = sIMspeedObs.m_calc s2 /\
  (let a := sIMspeedObs.sIMstatObs s1 in
   let b := sIMspeedObs.sIMstatObs s2 in
   sIMstatObs.fPrevIsAl a = sIMstatObs.fPrevIsAl b /\
   sIMstatObs.fPrevIsBe a = sIMstatObs.fPrevIsBe b /\
   sIMstatObs.m_calc a = sIMstatObs.m_calc b) /\
  (let a := sIMspeedObs.sIMrotObs s1 in
   let b := sIMspeedObs.sIMrotObs s2 in
   sIMrotObs.fFrAl a = sIMrotObs.fFrAl b /\
   sIMrotObs.fFrBe a = sIMrotObs.fFrBe b /\
   sIMrotObs.fPrevFrAl a = sIMrotObs.fPrevFrAl b /\
   sIMrotObs.fPrevFrBe a = sIMrotObs.fPrevFrBe b /\
   sIMrotObs.fPrevErAl a = sIMrotObs.fPrevErAl b /\
   sIMrotObs.fPrevErBe a = sIMrotObs.fPrevErBe b /\
   sIMrotObs.m_calc a = sIMrotObs.m_calc b) /\
  (let a := sIMspeedObs.sPI s1 in
   let b := sIMspeedObs.sPI s2 in
   sPI.fDtSec a = sPI.fDtSec b /\
   sPI.fKp a = sPI.fKp b /\
   sPI.fKi a = sPI.fKi b /\
   sPI.fUpOutLim a = sPI.fUpOutLim b /\
   sPI.fLowOutLim a = sPI.fLowOutLim b /\
   sPI.fIprevIn a = sPI.fIprevIn b /\
   sPI.fIprevOut a = sPI.fIprevOut b /\
   sPI.m_calc a = sPI.m_calc b /\
   sPI.m_rst a = sPI.m_rst b).

Context {LM : LibM F}.

(** One sampling period: load the sample, call the compute function. *)
Definition tIMspeedObs_step (p : tIMparams F) (s : tIMspeedObs F)
    (x : sample) : tIMspeedObs F :=
  tIMspeedObs_calc (load_sample x s) p.

(** The record after a whole sequence of samples. *)
Definition tIMspeedObs_after (p : tIMparams F) (s : tIMspeedObs F)
    (xs : list sample) : tIMspeedObs F :=
  fold_left (tIMspeedObs_step p) xs s.

(** The outputs read after each sample of a sequence, in order. *)
Fixpoint tIMspeedObs_trace (p : tIMparams F) (s : tIMspeedObs F)
    (xs : list sample) : list (F * F * F) :=
  match xs with
  | [] => []
  | x :: xs' =>
      let s' := tIMspeedObs_step p s x in
      speed_outputs s' :: tIMspeedObs_trace p s' xs'
  end.

End Callers.

(** ** Concrete records, in binary32 *)

Module Ex.
Definition z : Z -> Binary32.float := Binary32.of_Z.

(** A math library for closed examples only; every theorem below holds for
    all of them. *)
Definition libm_flat : LibM Binary32.float := {|
  atan2f := fun _ _ => f0;
  hypotf := fun _ x => x
|}.

(** Machine parameters: Dt = 1, one pole pair, Rs = Rr = 1, Ls = 2,
    Lr = Lm = 1; after [tIMparams_init] the three coefficients are 1. *)
Definition params : tIMparams Binary32.float :=
  tIMparams_init
    (sIMparams.mk (z 1) (z 1) (z 1) (z 1) (z 2) (z 1) (z 1)
                  f0 f0 f0 Fn_tIMparams_init).

(** The default rotor observer with inputs IsAl = 1, IsBe = 0, WrE = 1. *)
Definition rot : tIMrotObs Binary32.float :=
  sIMrotObs.set_fWrE (z 1)
    (sIMrotObs.set_fIsBe (z 0) (sIMrotObs.set_fIsAl (z 1)
       IM_ROT_OBS_DEFAULTS)).

(** The default stator observer with inputs Is = (1, 0), Us = (0, 1). *)
Definition stat : tIMstatObs Binary32.float :=
  sIMstatObs.set_fUsBe (z 1) (sIMstatObs.set_fUsAl (z 0)
    (sIMstatObs.set_fIsBe (z 0) (sIMstatObs.set_fIsAl (z 1)
       IM_STAT_OBS_DEFAULTS))).

(** A PI controller with Dt = 1, Kp = 1, Ki = 2 and limits -100, 100. *)
Definition pi : tPI Binary32.float :=
  sPI.mk (z 1) f0 (z 1) (z 2) (z 100) (z (-100)) f0 f0 f0 f0 f0
         Fn_tPI_calc Fn_tPI_rst.

(** The same controller with the integral gain Ki = 0. *)
Definition pi_Ki0 : tPI Binary32.float :=
  sPI.mk (z 1) f0 (z 1) (z 0) (z 100) (z (-100)) f0 f0 f0 f0 f0
         Fn_tPI_calc Fn_tPI_rst.

(** The default speed observer with that controller configured. *)
Definition speed : tIMspeedObs Binary32.float :=
  sIMspeedObs.set_sPI pi IM_SPEED_OBS_DEFAULTS.

(** Us = (0, 1), Is = (1, 0). *)
Definition meas : sample (F := Binary32.float) :=
  mk_sample (z 0) (z 1) (z 1) (z 0).
End Ex.

(** ** More of the caller's side of the controllers *)

Section ControllerCallers.
Context {F : Type} {FA : FloatArith F}.

(** One sampling period of a PI controller: the caller writes the input
    and calls the compute function. *)
Definition tPI_feed (ptPI : tPI F) (x : F) : tPI F :=
  tPI_calc (sPI.set_fIn x ptPI).

(** The record after a whole sequence of inputs. *)
Definition tPI_run (ptPI : tPI F) (xs : list F) : tPI F :=
  fold_left tPI_feed xs ptPI.

(** A PD controller reset and then run [n] times on the same input [x]. *)
Fixpoint tPD_hold (x : F) (n : nat) (ptPD : tPD F) : tPD F :=
  match n with
  | O => tPD_rst ptPD
  | S k => tPD_calc (sPD.set_fIn x (tPD_hold x k ptPD))
  end.

(** The fields a PID record shares with a PI record, and with a PD
    record. *)
Definition pi_of_pid (c : tPID F) : tPI F :=
  sPI.mk (sPID.fDtSec c) (sPID.fIn c) (sPID.fKp c) (sPID.fKi c)
         (sPID.fUpOutLim c) (sPID.fLowOutLim c) (sPID.fPout c) (sPID.fIout c)
         (sPID.fIprevIn c) (sPID.fIprevOut c) (sPID.fOut c)
         Fn_tPI_calc Fn_tPI_rst.

Definition pd_of_pid (c : tPID F) : tPD F :=
  sPD.mk (sPID.fDtSec c) (sPID.fIn c) (sPID.fKp c) (sPID.fKd c)
         (sPID.fUpOutLim c) (sPID.fLowOutLim c) (sPID.fPout c) (sPID.fDout c)
         (sPID.fDprevIn c) (sPID.fDprevOut c) (sPID.fOut c)
         Fn_tPD_calc Fn_tPD_rst.

End ControllerCallers.

(** ** Classes of binary32 values *)

Definition is_nan32 (x : Binary32.float) : bool :=
  match x with S754_nan => true | _ => false end.

Definition is_zero32 (x : Binary32.float) : bool :=
  match x with S754_zero _ => true | _ => false end.

(** Neither NaN nor infinite. *)
Definition is_finite32 (x : Binary32.float) : bool :=
  match x with S754_zero _ | S754_finite _ _ _ => true | _ => false end.

(** Neither NaN nor zero: finite and not zero, or infinite. *)
Definition is_nonzero32 (x : Binary32.float) : bool :=
  match x with S754_finite _ _ _ | S754_infinity _ => true | _ => false end.

(** More concrete records. *)
Module Ex2.

(** A binary32 P controller with Kp = 3 and limits -2, 2. *)
Definition p32 : tP Binary32.float :=
  sP.mk (Ex.z 1) (Ex.z 2) (Ex.z (-2)) (Ex.z 3) f0 Fn_tP_calc Fn_tP_rst.

(** Binary32 PD and PID controllers with Dt = 1, Kp = 1, Kd = 2 (and
    Ki = 2), limits -100, 100. *)
Definition pd32 : tPD Binary32.float :=
  sPD.mk (Ex.z 1) (Ex.z 1) (Ex.z 1) (Ex.z 2) (Ex.z 100) (Ex.z (-100))
         f0 f0 f0 f0 f0 Fn_tPD_calc Fn_tPD_rst.

Definition pid32 : tPID Binary32.float :=
  sPID.mk (Ex.z 1) (Ex.z 1) (Ex.z 1) (Ex.z 2) (Ex.z 2) (Ex.z 100)
          (Ex.z (-100)) f0 f0 f0 f0 f0 f0 f0 f0 Fn_tPID_calc Fn_tPID_rst.

(** The controllers of above with a NaN input. *)
Definition p32_nan : tP Binary32.float := sP.set_fIn S754_nan p32.
Definition pi32_nan : tPI Binary32.float := sPI.set_fIn S754_nan Ex.pi.
Definition pd32_nan : tPD Binary32.float := sPD.set_fIn S754_nan pd32.
Definition pid32_nan : tPID Binary32.float := sPID.set_fIn S754_nan pid32.

(** [IM_PARAMS_DEFAULTS] with only the resistances and the stator
    inductance set: the rotor and magnetizing inductances are still zero. *)
Definition params_no_inductance : tIMparams Binary32.float :=
  sIMparams.mk (Ex.z 1) (Ex.z 1) (Ex.z 1) (Ex.z 1) (Ex.z 2) f0 f0
               f0 f0 f0 Fn_tIMparams_init.

(** The four controllers with the limits exchanged: upper limit -2, lower
    limit 2; input 1, Kp = 3 (and Ki = 2, Kd = 2, Dt = 1). *)
Definition p32_exchanged : tP Binary32.float :=
  sP.mk (Ex.z 1) (Ex.z (-2)) (Ex.z 2) (Ex.z 3) f0 Fn_tP_calc Fn_tP_rst.
Definition pi32_exchanged : tPI Binary32.float :=
  sPI.mk (Ex.z 1) (Ex.z 1) (Ex.z 3) (Ex.z 2) (Ex.z (-2)) (Ex.z 2)
         f0 f0 f0 f0 f0 Fn_tPI_calc Fn_tPI_rst.
Definition pd32_exchanged : tPD Binary32.float :=
  sPD.mk (Ex.z 1) (Ex.z 1) (Ex.z 3) (Ex.z 2) (Ex.z (-2)) (Ex.z 2)
         f0 f0 f0 f0 f0 Fn_tPD_calc Fn_tPD_rst.
Definition pid32_exchanged : tPID Binary32.float :=
  sPID.mk (Ex.z 1) (Ex.z 1) (Ex.z 3) (Ex.z 2) (Ex.z 2) (Ex.z (-2)) (Ex.z 2)
          f0 f0 f0 f0 f0 f0 f0 f0 Fn_tPID_calc Fn_tPID_rst.

(** A PI controller with a negative proportional gain: Dt = 1, Kp = -3,
    Ki = 2, limits -100, 100. *)
Definition pi32_negative_gain : tPI Binary32.float :=
  sPI.mk (Ex.z 1) f0 (Ex.z (-3)) (Ex.z 2) (Ex.z 100) (Ex.z (-100))
         f0 f0 f0 f0 f0 Fn_tPI_calc Fn_tPI_rst.

(** The default rotor observer with the inputs of [Ex.rot] turned by a
    quarter turn: IsAl = 0, IsBe = 1, WrE = 1. *)
Definition rot_quarter_turn : tIMrotObs Binary32.float :=
  sIMrotObs.set_fWrE (Ex.z 1)
    (sIMrotObs.set_fIsBe (Ex.z 1) (sIMrotObs.set_fIsAl (Ex.z 0)
       IM_ROT_OBS_DEFAULTS)).

(** The default speed observer with stale values left in its two flux
    outputs and in the outputs of its sub-records. *)
Definition speed_stale : tIMspeedObs Binary32.float :=
  sIMspeedObs.set_fFrAng (Ex.z 7)
    (sIMspeedObs.set_fFrMagn (Ex.z 9)
       (sIMspeedObs.set_sIMstatObs
          (sIMstatObs.set_fEsAl (Ex.z 5) IM_STAT_OBS_DEFAULTS)
          (sIMspeedObs.set_sIMrotObs
             (sIMrotObs.set_fErBe (Ex.z 3) IM_ROT_OBS_DEFAULTS)
             IM_SPEED_OBS_DEFAULTS))).
End Ex2.

(** Both sides of each equation of the goal evaluate to the same record
    or field expression. *)
Ltac by_evaluation :=
  cbv zeta;
  repeat match goal with |- _ /\ _ => split end;
  vm_compute; reflexivity.

(** * Properties of the controllers (fp_pid.c) *)

Section FpPidFacts.
Context {F : Type} {FA : FloatArith F}.

(** [tPI_calc] leaves the input, the gains, the limits, the sampling
    interval and the two function pointers as they were. *)
Lemma tPI_calc_frame (c : tPI F) :
  sPI.fIn (tPI_calc c) = sPI.fIn c /\
  sPI.fDtSec (tPI_calc c) = sPI.fDtSec c /\
  sPI.fKp (tPI_calc c) = sPI.fKp c /\
  sPI.fKi (tPI_calc c) = sPI.fKi c /\
  sPI.fUpOutLim (tPI_calc c) = sPI.fUpOutLim c /\
  sPI.fLowOutLim (tPI_calc c) = sPI.fLowOutLim c /\
  sPI.m_calc (tPI_calc c) = sPI.m_calc c /\
  sPI.m_rst (tPI_calc c) = sPI.m_rst c.
Proof. repeat split. Qed.

(** The output of [tPI_calc] is the saturated sum of the proportional and
    integral links, and the history of the integral link is refreshed. *)
Lemma tPI_calc_output (c : tPI F) :
  sPI.fOut (tPI_calc c)
    = saturate (tPI_preOut (tPI_calc c)) (sPI.fUpOutLim c) (sPI.fLowOutLim c)
  /\ sPI.fPout (tPI_calc c) = fmul (sPI.fIn c) (sPI.fKp c)
  /\ sPI.fIprevIn (tPI_calc c) = sPI.fPout (tPI_calc c)
  /\ sPI.fIprevOut (tPI_calc c) = sPI.fIout (tPI_calc c).
Proof. repeat split. Qed.

(** [tPI_hold] keeps the sampling interval and the two gains. *)
Lemma tPI_hold_config (x : F) (n : nat) (c : tPI F) :
  sPI.fDtSec (tPI_hold x n c) = sPI.fDtSec c /\
  sPI.fKp (tPI_hold x n c) = sPI.fKp c /\
  sPI.fKi (tPI_hold x n c) = sPI.fKi c.
Proof.
  induction n as [|n IH]; [repeat split; reflexivity|].
  destruct IH as (H1 & H2 & H3).
  destruct (tPI_calc_frame (sPI.set_fIn x (tPI_hold x n c)))
    as (_ & Hd & Hp & Hi & _).
  change (tPI_hold x (S n) c) with (tPI_calc (sPI.set_fIn x (tPI_hold x n c))).
  rewrite Hd, Hp, Hi. repeat split; assumption.
Qed.

(** The integral history of a reset record is zero. *)
Lemma tPI_hold_zero (x : F) (c : tPI F) :
  sPI.fIprevOut (tPI_hold x 0 c) = f0 /\ sPI.fIprevIn (tPI_hold x 0 c) = f0.
Proof. split; reflexivity. Qed.

(** One more sample of the held input [x], in terms of the record before
    it. *)
Lemma tPI_hold_step (x : F) (n : nat) (c : tPI F) :
  let s := tPI_hold x n c in
  let s' := tPI_hold x (S n) c in
  sPI.fPout s' = fmul x (sPI.fKp c) /\
  sPI.fIprevIn s' = fmul x (sPI.fKp c) /\
  sPI.fIprevOut s' = sPI.fIout s' /\
  sPI.fIout s' =
    fadd (sPI.fIprevOut s)
         (fmul (fmul f0_5 (sPI.fDtSec c))
               (fadd (fmul (fmul x (sPI.fKp c)) (sPI.fKi c))
                     (sPI.fIprevIn s))).
Proof.
  cbv zeta.
  destruct (tPI_hold_config x n c) as (Hd & Hp & Hi).
  change (tPI_hold x (S n) c) with (tPI_calc (sPI.set_fIn x (tPI_hold x n c))).
  rewrite <- Hd, <- Hp, <- Hi. repeat split; reflexivity.
Qed.

(** [tPD_rst] zeroes the six working fields of a PD record and keeps the
    rest. *)
Lemma tPD_rst_spec (c : tPD F) :
  tPD_rst c =
    sPD.mk (sPD.fDtSec c) f0 (sPD.fKp c) (sPD.fKd c) (sPD.fUpOutLim c)
           (sPD.fLowOutLim c) f0 f0 f0 f0 f0 (sPD.m_calc c) (sPD.m_rst c).
Proof. reflexivity. Qed.

(** C7: for the P, PI and PID controllers, reset writes zero to the input,
    the output and every internal link and history field, and returns the
    gains, both output limits, the sampling interval (and the two function
    pointers) exactly as they were. *)
Theorem controllers_rst_zero_and_frame :
  (forall c : tP F,
     tP_rst c =
       sP.mk f0 (sP.fUpOutLim c) (sP.fLowOutLim c) (sP.fKp c) f0
             (sP.m_calc c) (sP.m_rst c)) /\
  (forall c : tPI F,
     tPI_rst c =
       sPI.mk (sPI.fDtSec c) f0 (sPI.fKp c) (sPI.fKi c) (sPI.fUpOutLim c)
              (sPI.fLowOutLim c) f0 f0 f0 f0 f0 (sPI.m_calc c) (sPI.m_rst c)) /\
  (forall c : tPID F,
     tPID_rst c =
       sPID.mk (sPID.fDtSec c) f0 (sPID.fKp c) (sPID.fKi c) (sPID.fKd c)
               (sPID.fUpOutLim c) (sPID.fLowOutLim c) f0 f0 f0 f0 f0 f0 f0 f0
               (sPID.m_calc c) (sPID.m_rst c)).
Proof. split; [|split]; intro c; reflexivity. Qed.

End FpPidFacts.

(** ** The PI recurrence in exact arithmetic *)

Section PIExact.
Local Open Scope R_scope.

(** The closed form of the integral link after [n + 1] samples of a
    constant input [x]: it has accumulated [Ki P] once per sample and the
    bare [P] once per sample but the first, where [P = x Kp]. *)
Lemma tPI_hold_exact_fIout (x : R) (n : nat) (c : tPI R) :
  sPI.fIout (tPI_hold x (S n) c) =
    1 / 2 * sPI.fDtSec c * (x * sPI.fKp c) * (INR (S n) * sPI.fKi c + INR n).
Proof.
  induction n as [|n IH].
  - destruct (tPI_hold_step x 0 c) as (_ & _ & _ & HI). rewrite HI.
    destruct (tPI_hold_zero x c) as [-> ->].
    cbv [fadd fmul f0 f0_5 exact_real INR]. field.
  - destruct (tPI_hold_step x (S n) c) as (_ & _ & _ & HI). rewrite HI.
    destruct (tPI_hold_step x n c) as (_ & HPI' & HPO' & _).
    rewrite HPO', HPI', IH.
    rewrite (S_INR (S n)), (S_INR n).
    cbv [fadd fmul f0 f0_5 exact_real]. field.
Qed.

Lemma tPI_hold_exact_state (x : R) (n : nat) (c : tPI R) :
  let s := tPI_hold x (S n) c in
  sPI.fPout s = x * sPI.fKp c /\
  sPI.fIprevIn s = x * sPI.fKp c /\
  sPI.fIprevOut s = sPI.fIout s /\
  sPI.fIout s =
    1 / 2 * sPI.fDtSec c * (x * sPI.fKp c) * (INR (S n) * sPI.fKi c + INR n).
Proof.
  cbv zeta.
  destruct (tPI_hold_step x n c) as (HP & HPI & HPO & _).
  split; [exact HP|]. split; [exact HPI|]. split; [exact HPO|].
  apply tPI_hold_exact_fIout.
Qed.

(** What [tPI_calc] computes before saturation, for every number of
    samples [n + 1]. *)
Lemma tPI_hold_unclamped_exact (x : R) (n : nat) (c : tPI R) :
  tPI_preOut (tPI_hold x (S n) c) =
    x * sPI.fKp c
    + 1 / 2 * sPI.fDtSec c * (x * sPI.fKp c) * (INR (S n) * sPI.fKi c + INR n).
Proof.
  destruct (tPI_hold_exact_state x n c) as (IP & _ & _ & II).
  unfold tPI_preOut. rewrite IP, II. reflexivity.
Qed.

(** The distance to the trapezoidal closed form: it vanishes at the first
    sample and otherwise only when [Ki = 1] or the proportional part or the
    sampling interval is zero. *)
Lemma tPI_hold_unclamped_vs_trapezoid (x : R) (n : nat) (c : tPI R) :
  tPI_preOut (tPI_hold x (S n) c)
    - tPI_trapezoid_closed_form c x (INR (S n))
  = 1 / 2 * sPI.fDtSec c * (x * sPI.fKp c) * INR n * (1 - sPI.fKi c).
Proof.
  rewrite tPI_hold_unclamped_exact. unfold tPI_trapezoid_closed_form.
  rewrite S_INR. cbn -[INR]. field.
Qed.

Lemma tPI_hold_first_sample_is_trapezoid (x : R) (c : tPI R) :
  tPI_preOut (tPI_hold x 1 c) = tPI_trapezoid_closed_form c x 1.
Proof.
  pose proof (tPI_hold_unclamped_vs_trapezoid x 0 c) as H.
  cbn in H. unfold tPI_trapezoid_closed_form in *. cbn in *. lra.
Qed.

End PIExact.

(** ** The PI recurrence in binary32 *)

(** C3: from a reset PI controller with Dt = 1, Kp = 1, Ki = 2 and limits
    -100 and 100, holding the input 1: after the first sample the value
    before saturation is 2, which is the trapezoidal closed form; after the
    second sample it is 3.5, whereas the closed form
    [Kp x + Ki Kp x Dt (n - 1/2)] is 4; after the tenth it is 15.5, whereas
    the closed form is 20.  The integral link adds [fPout * fKi] for the
    current sample and the bare [fPout] it stored in [fIprevIn] for the
    previous one. *)
Theorem tPI_calc_misses_trapezoid_after_two_samples :
  tPI_preOut (tPI_hold (Ex.z 1) 1 Ex.pi) = Ex.z 2 /\
  tPI_trapezoid_closed_form Ex.pi (Ex.z 1) (Ex.z 1) = Ex.z 2 /\
  tPI_preOut (tPI_hold (Ex.z 1) 2 Ex.pi) = Binary32.of_scaled 7 (-1) /\
  tPI_trapezoid_closed_form Ex.pi (Ex.z 1) (Ex.z 2) = Ex.z 4 /\
  tPI_preOut (tPI_hold (Ex.z 1) 2 Ex.pi)
    <> tPI_trapezoid_closed_form Ex.pi (Ex.z 1) (Ex.z 2) /\
  tPI_preOut (tPI_hold (Ex.z 1) 10 Ex.pi) = Binary32.of_scaled 31 (-1) /\
  tPI_trapezoid_closed_form Ex.pi (Ex.z 1) (Ex.z 10) = Ex.z 20.
Proof.
  split; [vm_compute; reflexivity|].
  split; [vm_compute; reflexivity|].
  split; [vm_compute; reflexivity|].
  split; [vm_compute; reflexivity|].
  split; [vm_compute; discriminate|].
  split; vm_compute; reflexivity.
Qed.

(** With the integral gain set to zero the integral link still grows: held
    at the input 1, it is 0 after the first sample and 0.5 after the
    second. *)
Lemma tPI_calc_integrates_with_zero_Ki :
  sPI.fIout (tPI_hold (Ex.z 1) 1 Ex.pi_Ki0) = f0 /\
  sPI.fIout (tPI_hold (Ex.z 1) 2 Ex.pi_Ki0) = f0_5.
Proof. split; vm_compute; reflexivity. Qed.

(** * Properties of the estimators (im_estimators.c) *)

Section ImEstimatorsFacts.
Context {F : Type} {FA : FloatArith F}.
Local Open Scope cfloat_scope.

(** ** Machine parameters *)

(** C6: [tIMparams_init] writes [f1divTr = fRr / fLr],
    [f1divKr = fLr / fLm] and [fSigLs = (1 - fLm * fLm / (fLs * fLr)) * fLs]
    and nothing else: the seven physical constants and the [m_init] pointer
    of the record on return are those of the record on entry. *)
Theorem tIMparams_init_writes_three_coefficients (p : tIMparams F) :
  tIMparams_init p =
    sIMparams.mk
      (sIMparams.fDt p) (sIMparams.fNpP p) (sIMparams.fRs p)
      (sIMparams.fRr p) (sIMparams.fLs p) (sIMparams.fLr p)
      (sIMparams.fLm p)
      (sIMparams.fRr p / sIMparams.fLr p)
      (sIMparams.fLr p / sIMparams.fLm p)
      ((f1 - sIMparams.fLm p * sIMparams.fLm p
               / (sIMparams.fLs p * sIMparams.fLr p)) * sIMparams.fLs p)
      (sIMparams.m_init p).
Proof. reflexivity. Qed.

(** C9: a second call of [tIMparams_init] right after the first returns the
    very record the first call returned; in particular the three derived
    coefficients have identical values. *)
Theorem tIMparams_init_idempotent (p : tIMparams F) :
  tIMparams_init (tIMparams_init p) = tIMparams_init p /\
  sIMparams.f1divTr (tIMparams_init (tIMparams_init p))
    = sIMparams.f1divTr (tIMparams_init p) /\
  sIMparams.f1divKr (tIMparams_init (tIMparams_init p))
    = sIMparams.f1divKr (tIMparams_init p) /\
  sIMparams.fSigLs (tIMparams_init (tIMparams_init p))
    = sIMparams.fSigLs (tIMparams_init p).
Proof. repeat split. Qed.

(** ** Stator back-EMF observer *)

(** The inputs and the function pointer are not written. *)
Lemma tIMstatObs_calc_frame (s : tIMstatObs F) (p : tIMparams F) :
  sIMstatObs.fIsAl (tIMstatObs_calc s p) = sIMstatObs.fIsAl s /\
  sIMstatObs.fIsBe (tIMstatObs_calc s p) = sIMstatObs.fIsBe s /\
  sIMstatObs.fUsAl (tIMstatObs_calc s p) = sIMstatObs.fUsAl s /\
  sIMstatObs.fUsBe (tIMstatObs_calc s p) = sIMstatObs.fUsBe s /\
  sIMstatObs.m_calc (tIMstatObs_calc s p) = sIMstatObs.m_calc s.
Proof. repeat split. Qed.

(** C5: on each axis, with the derivative taken as the difference between
    the current input and the current history held on entry, divided by
    [fDt], the back-EMF output is
    [(voltage - fRs * current - fSigLs * derivative) * f1divKr], and on
    return the history holds the input current. *)
Theorem tIMstatObs_calc_spec (s : tIMstatObs F) (p : tIMparams F) :
  let fDiffIsAl :=
    (sIMstatObs.fIsAl s - sIMstatObs.fPrevIsAl s) / sIMparams.fDt p in
  let fDiffIsBe :=
    (sIMstatObs.fIsBe s - sIMstatObs.fPrevIsBe s) / sIMparams.fDt p in
  let s' := tIMstatObs_calc s p in
  sIMstatObs.fEsAl s' =
    (sIMstatObs.fUsAl s - sIMparams.fRs p * sIMstatObs.fIsAl s
       - sIMparams.fSigLs p * fDiffIsAl) * sIMparams.f1divKr p /\
  sIMstatObs.fEsBe s' =
    (sIMstatObs.fUsBe s - sIMparams.fRs p * sIMstatObs.fIsBe s
       - sIMparams.fSigLs p * fDiffIsBe) * sIMparams.f1divKr p /\
  sIMstatObs.fPrevIsAl s' = sIMstatObs.fIsAl s /\
  sIMstatObs.fPrevIsBe s' = sIMstatObs.fIsBe s.
Proof. repeat split. Qed.

(** After any call the current history equals the current inputs. *)
Lemma tIMstatObs_calc_history (s : tIMstatObs F) (p : tIMparams F) :
  stat_history_is_latest (tIMstatObs_calc s p).
Proof. split; reflexivity. Qed.

(** ** Rotor flux and back-EMF observer *)

(** The inputs and the function pointer are not written. *)
Lemma tIMrotObs_calc_frame (s : tIMrotObs F) (p : tIMparams F) :
  sIMrotObs.fIsAl (tIMrotObs_calc s p) = sIMrotObs.fIsAl s /\
  sIMrotObs.fIsBe (tIMrotObs_calc s p) = sIMrotObs.fIsBe s /\
  sIMrotObs.fWrE (tIMrotObs_calc s p) = sIMrotObs.fWrE s /\
  sIMrotObs.m_calc (tIMrotObs_calc s p) = sIMrotObs.m_calc s.
Proof. repeat split. Qed.

(** After any call the flux and back-EMF histories equal the outputs. *)
Lemma tIMrotObs_calc_history (s : tIMrotObs F) (p : tIMparams F) :
  rot_history_is_latest (tIMrotObs_calc s p).
Proof. unfold rot_history_is_latest. by_evaluation. Qed.

(** What the two blocks read: the cross-coupling term of the alpha back-EMF
    reads the beta flux the record held on entry, and the cross-coupling
    term of the beta back-EMF reads the alpha flux that the same call has
    just written; each flux is the trapezoidal update of its history on
    entry with the back-EMF of this call. *)
Lemma tIMrotObs_calc_cross_terms (s : tIMrotObs F) (p : tIMparams F) :
  let s' := tIMrotObs_calc s p in
  sIMrotObs.fErAl s' =
    (sIMrotObs.fIsAl s * sIMparams.fLm p - sIMrotObs.fFrAl s)
      * sIMparams.f1divTr p
    - sIMrotObs.fWrE s * sIMrotObs.fFrBe s /\
  sIMrotObs.fErBe s' =
    (sIMrotObs.fIsBe s * sIMparams.fLm p - sIMrotObs.fFrBe s)
      * sIMparams.f1divTr p
    + sIMrotObs.fWrE s * sIMrotObs.fFrAl s' /\
  sIMrotObs.fFrAl s' =
    sIMrotObs.fPrevFrAl s
    + f0_5 * sIMparams.fDt p * (sIMrotObs.fErAl s' + sIMrotObs.fPrevErAl s) /\
  sIMrotObs.fFrBe s' =
    sIMrotObs.fPrevFrBe s
    + f0_5 * sIMparams.fDt p * (sIMrotObs.fErBe s' + sIMrotObs.fPrevErBe s).
Proof. repeat split. Qed.

(** C10: from any reachable state of either observer, the compute call
    returns a record whose history fields equal the values just produced:
    the rotor observer's previous flux and previous back-EMF equal its flux
    and back-EMF outputs, the stator observer's previous currents equal its
    current inputs. *)
Theorem calc_reestablishes_history_is_latest
    (sr : tIMrotObs F) (ss : tIMstatObs F) (p : tIMparams F) :
  rot_reachable sr -> stat_reachable ss ->
  rot_history_is_latest (tIMrotObs_calc sr p) /\
  stat_history_is_latest (tIMstatObs_calc ss p).
Proof.
  intros _ _. split.
  - apply tIMrotObs_calc_history.
  - apply tIMstatObs_calc_history.
Qed.

(** The invariant also holds in every reachable state in which the last
    event was a call. *)
Lemma rot_reachable_after_calc (s : tIMrotObs F) (p : tIMparams F) :
  rot_reachable s ->
  rot_reachable (tIMrotObs_calc s p) /\
  rot_history_is_latest (tIMrotObs_calc s p).
Proof.
  intro H. split; [now apply rot_reach_calc | apply tIMrotObs_calc_history].
Qed.

End ImEstimatorsFacts.

(** C1: at the first call on the default record with IsAl = 1, IsBe = 0,
    WrE = 1 (and Dt = 1, Lm = 1, 1/Tr = 1) the alpha flux is 0 on entry and
    the call rewrites it to 0.5 before the beta block runs.  The alpha
    back-EMF is the one the flux on entry gives, but the beta back-EMF is
    1 * 0.5 = 0.5 where the alpha flux on entry gives 0: the cross term of
    the beta axis reads a value written earlier in the same call.  So the
    record returned changes when the two blocks are exchanged, and the flux
    does not turn with the input: the current (1, 0) gives the flux
    (0.5, 0.25) and the current (0, 1) gives the flux (0, 0.5). *)
Theorem tIMrotObs_calc_beta_cross_term_reads_same_call_flux :
  sIMrotObs.fFrAl Ex.rot = f0 /\
  sIMrotObs.fFrAl (tIMrotObs_calc Ex.rot Ex.params) = f0_5 /\
  sIMrotObs.fErAl (tIMrotObs_calc Ex.rot Ex.params)
    = fErAl_from_entry_flux Ex.rot Ex.params /\
  sIMrotObs.fErBe (tIMrotObs_calc Ex.rot Ex.params) = f0_5 /\
  fErBe_from_entry_flux Ex.rot Ex.params = f0 /\
  ~ cross_terms_read_entry_flux Ex.rot Ex.params /\
  tIMrotObs_calc Ex.rot Ex.params
    <> tIMrotObs_calc_beta_first Ex.rot Ex.params /\
  sIMrotObs.fFrBe (tIMrotObs_calc Ex.rot Ex.params)
    = Binary32.of_scaled 1 (-2) /\
  sIMrotObs.fFrAl (tIMrotObs_calc Ex2.rot_quarter_turn Ex.params) = f0 /\
  sIMrotObs.fFrBe (tIMrotObs_calc Ex2.rot_quarter_turn Ex.params) = f0_5.
Proof.
  split; [vm_compute; reflexivity|].
  split; [vm_compute; reflexivity|].
  split; [vm_compute; reflexivity|].
  split; [vm_compute; reflexivity|].
  split; [vm_compute; reflexivity|].
  split; [intros [_ H]; vm_compute in H; discriminate H|].
  split; [vm_compute; discriminate|].
  split; [vm_compute; reflexivity|].
  split; vm_compute; reflexivity.
Qed.

Lemma calc_reestablishes_history_is_latest_witness :
  rot_reachable Ex.rot /\ stat_reachable Ex.stat /\
  rot_history_is_latest (tIMrotObs_calc Ex.rot Ex.params) /\
  stat_history_is_latest (tIMstatObs_calc Ex.stat Ex.params).
Proof.
  assert (Hr : rot_reachable Ex.rot).
  { unfold Ex.rot. apply rot_reach_inputs. apply rot_reach_defaults. }
  assert (Hs : stat_reachable Ex.stat).
  { unfold Ex.stat. apply stat_reach_inputs. apply stat_reach_defaults. }
  split; [exact Hr | split; [exact Hs |]].
  apply (@calc_reestablishes_history_is_latest _ _ Ex.rot Ex.stat Ex.params Hr Hs).
Defined.

(** ** Sensorless speed and flux observer *)

Section SpeedObsFacts.
Context {F : Type} {FA : FloatArith F} {LM : LibM F}.
Local Open Scope cfloat_scope.

(** The record [tIMspeedObs_calc] returns, field by field. *)
Lemma tIMspeedObs_calc_unfold (s : tIMspeedObs F) (p : tIMparams F) :
  tIMspeedObs_calc s p =
    let st := tIMstatObs_calc (stat_inputs_loaded s) p in
    let rt := tIMrotObs_calc (rot_inputs_loaded s) p in
    let err :=
      sIMspeedObs.fIsAl s * (sIMstatObs.fEsBe st - sIMrotObs.fErBe rt)
      - sIMspeedObs.fIsBe s * (sIMstatObs.fEsAl st - sIMrotObs.fErAl rt) in
    let c :=
      call_sPI (sPI.m_calc (sIMspeedObs.sPI s))
               (sPI.set_fIn err (sIMspeedObs.sPI s)) in
    sIMspeedObs.mk
      (sIMspeedObs.fUsAl s) (sIMspeedObs.fUsBe s)
      (sIMspeedObs.fIsAl s) (sIMspeedObs.fIsBe s)
      st rt c (sPI.fOut c)
      (atan2f (sIMrotObs.fFrBe rt) (sIMrotObs.fFrAl rt))
      (hypotf (sIMrotObs.fFrBe rt) (sIMrotObs.fFrAl rt))
      (sIMspeedObs.m_calc s).
Proof.
  destruct s as [ua ub ia ib st rt c w ang mag f].
  destruct st as [? ? ? ? ? ? ? ? fs]; destruct rt as [? ? ? ? ? ? ? ? ? ? ? fr].
  destruct c as [? ? ? ? ? ? ? ? ? ? ? fc ?].
  destruct fs, fr, fc; vm_compute; reflexivity.
Qed.

(** The sub-records on return: each compute function has run once, on the
    sub-record as the copying statements left it. *)
Lemma tIMspeedObs_calc_subrecords (s : tIMspeedObs F) (p : tIMparams F) :
  sIMspeedObs.sIMstatObs (tIMspeedObs_calc s p)
    = tIMstatObs_calc (stat_inputs_loaded s) p /\
  sIMspeedObs.sIMrotObs (tIMspeedObs_calc s p)
    = tIMrotObs_calc (rot_inputs_loaded s) p.
Proof. rewrite tIMspeedObs_calc_unfold. split; reflexivity. Qed.

(** The four inputs and the function pointer are not written. *)
Lemma tIMspeedObs_calc_frame (s : tIMspeedObs F) (p : tIMparams F) :
  sIMspeedObs.fUsAl (tIMspeedObs_calc s p) = sIMspeedObs.fUsAl s /\
  sIMspeedObs.fUsBe (tIMspeedObs_calc s p) = sIMspeedObs.fUsBe s /\
  sIMspeedObs.fIsAl (tIMspeedObs_calc s p) = sIMspeedObs.fIsAl s /\
  sIMspeedObs.fIsBe (tIMspeedObs_calc s p) = sIMspeedObs.fIsBe s /\
  sIMspeedObs.m_calc (tIMspeedObs_calc s p) = sIMspeedObs.m_calc s.
Proof. rewrite tIMspeedObs_calc_unfold. repeat split. Qed.

(** The speed output is the output field of the controller record, whatever
    the controller's [m_calc] points to. *)
Lemma tIMspeedObs_calc_speed_is_controller_output
    (s : tIMspeedObs F) (p : tIMparams F) :
  sIMspeedObs.fWrE (tIMspeedObs_calc s p)
    = sPI.fOut (sIMspeedObs.sPI (tIMspeedObs_calc s p)).
Proof. rewrite tIMspeedObs_calc_unfold. reflexivity. Qed.

(** The rotor observer does not write its speed input. *)
Lemma rot_inputs_loaded_fWrE (s : tIMspeedObs F) (p : tIMparams F) :
  sIMrotObs.fWrE (rot_inputs_loaded s) = sIMspeedObs.fWrE s /\
  sIMrotObs.fWrE (tIMrotObs_calc (rot_inputs_loaded s) p)
    = sIMspeedObs.fWrE s.
Proof. split; reflexivity. Qed.

(** C2: the rotor observer runs on a record whose speed input is the speed
    field of the speed observer on entry to the call, and still holds it on
    return; the speed field itself is overwritten afterwards with the
    controller output.  Along a run, the speed the rotor observer uses at a
    sample is therefore the controller output of the sample before. *)
Theorem tIMspeedObs_calc_one_sample_delay
    (s : tIMspeedObs F) (p : tIMparams F) :
  (sIMspeedObs.sIMrotObs (tIMspeedObs_calc s p)
     = tIMrotObs_calc (rot_inputs_loaded s) p /\
   sIMrotObs.fWrE (rot_inputs_loaded s) = sIMspeedObs.fWrE s /\
   sIMrotObs.fWrE (sIMspeedObs.sIMrotObs (tIMspeedObs_calc s p))
     = sIMspeedObs.fWrE s /\
   sIMspeedObs.fWrE (tIMspeedObs_calc s p)
     = sPI.fOut (sIMspeedObs.sPI (tIMspeedObs_calc s p))) /\
  (forall (xs : list sample) (y x : sample),
     let prev := tIMspeedObs_after p s (xs ++ [y]) in
     let cur := tIMspeedObs_step p prev x in
     sIMspeedObs.sIMrotObs cur
       = tIMrotObs_calc (rot_inputs_loaded (load_sample x prev)) p /\
     sIMrotObs.fWrE (rot_inputs_loaded (load_sample x prev))
       = sPI.fOut (sIMspeedObs.sPI prev) /\
     sIMrotObs.fWrE (sIMspeedObs.sIMrotObs cur)
       = sPI.fOut (sIMspeedObs.sPI prev)).
Proof.
  assert (single : forall s0 : tIMspeedObs F,
    sIMspeedObs.sIMrotObs (tIMspeedObs_calc s0 p)
      = tIMrotObs_calc (rot_inputs_loaded s0) p /\
    sIMrotObs.fWrE (rot_inputs_loaded s0) = sIMspeedObs.fWrE s0 /\
    sIMrotObs.fWrE (sIMspeedObs.sIMrotObs (tIMspeedObs_calc s0 p))
      = sIMspeedObs.fWrE s0 /\
    sIMspeedObs.fWrE (tIMspeedObs_calc s0 p)
      = sPI.fOut (sIMspeedObs.sPI (tIMspeedObs_calc s0 p))).
  { intro s0.
    destruct (tIMspeedObs_calc_subrecords s0 p) as [_ Hr].
    destruct (rot_inputs_loaded_fWrE s0 p) as [Hin Hout].
    split; [exact Hr|]. split; [exact Hin|]. split.
    - rewrite Hr. exact Hout.
    - apply tIMspeedObs_calc_speed_is_controller_output. }
  split; [apply single|].
  intros xs y x prev cur.
  assert (Hprev : sIMspeedObs.fWrE prev = sPI.fOut (sIMspeedObs.sPI prev)).
  { subst prev. unfold tIMspeedObs_after. rewrite fold_left_app.
    apply tIMspeedObs_calc_speed_is_controller_output. }
  assert (Hload : sIMspeedObs.fWrE (load_sample x prev) = sIMspeedObs.fWrE prev)
    by reflexivity.
  destruct (single (load_sample x prev)) as (Hr & Hin & Hout & _).
  subst cur. unfold tIMspeedObs_step.
  split; [exact Hr|]. rewrite Hin, Hout, Hload. split; exact Hprev.
Qed.

(** C4: when the controller's [m_calc] holds [tPI_calc], as [PI_DEFAULTS]
    sets it, then on return: the two sub-observers have run; the controller
    input is IsAl (EsBe - ErBe) - IsBe (EsAl - ErAl) on their outputs; the
    controller has run on that input and its saturated output is the speed
    estimate; the flux angle is [atan2f] and the flux magnitude [hypotf] of
    the beta and alpha flux the rotor observer has just produced. *)
Theorem tIMspeedObs_calc_spec (s : tIMspeedObs F) (p : tIMparams F) :
  sPI.m_calc (sIMspeedObs.sPI s) = Fn_tPI_calc ->
  let s' := tIMspeedObs_calc s p in
  let st := sIMspeedObs.sIMstatObs s' in
  let rt := sIMspeedObs.sIMrotObs s' in
  let c := sIMspeedObs.sPI s' in
  let err :=
    sIMspeedObs.fIsAl s * (sIMstatObs.fEsBe st - sIMrotObs.fErBe rt)
    - sIMspeedObs.fIsBe s * (sIMstatObs.fEsAl st - sIMrotObs.fErAl rt) in
  st = tIMstatObs_calc (stat_inputs_loaded s) p /\
  rt = tIMrotObs_calc (rot_inputs_loaded s) p /\
  sPI.fIn c = err /\
  c = tPI_calc (sPI.set_fIn err (sIMspeedObs.sPI s)) /\
  sPI.fOut c
    = saturate (tPI_preOut c) (sPI.fUpOutLim (sIMspeedObs.sPI s))
               (sPI.fLowOutLim (sIMspeedObs.sPI s)) /\
  sIMspeedObs.fWrE s' = sPI.fOut c /\
  sIMspeedObs.fFrAng s' = atan2f (sIMrotObs.fFrBe rt) (sIMrotObs.fFrAl rt) /\
  sIMspeedObs.fFrMagn s' = hypotf (sIMrotObs.fFrBe rt) (sIMrotObs.fFrAl rt).
Proof.
  intros Hcalc. cbv zeta. rewrite tIMspeedObs_calc_unfold. cbv zeta.
  rewrite Hcalc.
  cbv beta iota delta [sIMspeedObs.sIMstatObs sIMspeedObs.sIMrotObs
    sIMspeedObs.sPI sIMspeedObs.fWrE sIMspeedObs.fFrAng sIMspeedObs.fFrMagn
    call_sPI].
  split; [reflexivity|]. split; [reflexivity|].
  match goal with |- context [tPI_calc ?c0] =>
    destruct (tPI_calc_frame c0) as (Hin & _);
    destruct (tPI_calc_output c0) as (Hout & _)
  end.
  split; [rewrite Hin; reflexivity|].
  split; [reflexivity|].
  split; [exact Hout|].
  repeat split.
Qed.

(** One sampling period maps records that agree on the persistent state to
    the same record: the stale inputs, sub-observer inputs and outputs,
    controller input and outputs, and the flux angle and magnitude of the
    record on entry have no influence. *)
Lemma tIMspeedObs_step_persistent_state
    (p : tIMparams F) (s1 s2 : tIMspeedObs F) (x : sample) :
  same_persistent_state s1 s2 ->
  tIMspeedObs_step p s1 x = tIMspeedObs_step p s2 x.
Proof.
  unfold same_persistent_state.
  destruct s1 as [? ? ? ? st1 rt1 c1 ? ? ? ?].
  destruct s2 as [? ? ? ? st2 rt2 c2 ? ? ? ?].
  destruct st1 as [? ? ? ? ? ? ? ? fs1], st2 as [? ? ? ? ? ? ? ? fs2].
  destruct rt1 as [? ? ? ? ? ? ? ? ? ? ? fr1].
  destruct rt2 as [? ? ? ? ? ? ? ? ? ? ? fr2].
  destruct c1 as [? ? ? ? ? ? ? ? ? ? ? fc1 ?].
  destruct c2 as [? ? ? ? ? ? ? ? ? ? ? fc2 ?].
  cbv beta iota zeta
      delta [sIMspeedObs.fWrE sIMspeedObs.m_calc sIMspeedObs.sIMstatObs
             sIMspeedObs.sIMrotObs sIMspeedObs.sPI
             sIMstatObs.fPrevIsAl sIMstatObs.fPrevIsBe sIMstatObs.m_calc
             sIMrotObs.fFrAl sIMrotObs.fFrBe sIMrotObs.fPrevFrAl
             sIMrotObs.fPrevFrBe sIMrotObs.fPrevErAl sIMrotObs.fPrevErBe
             sIMrotObs.m_calc
             sPI.fDtSec sPI.fKp sPI.fKi sPI.fUpOutLim sPI.fLowOutLim
             sPI.fIprevIn sPI.fIprevOut sPI.m_calc sPI.m_rst].
  intros (Hw & Hm & (? & ? & ?) & (? & ? & ? & ? & ? & ? & ?)
          & (? & ? & ? & ? & ? & ? & ? & Hpc & ?)).
  subst.
  destruct fs2, fr2, fc2; vm_compute; reflexivity.
Qed.

Lemma same_persistent_state_refl (s : tIMspeedObs F) :
  same_persistent_state s s.
Proof. unfold same_persistent_state. cbv zeta. repeat split. Qed.

Lemma tIMspeedObs_trace_persistent_state
    (p : tIMparams F) (xs : list sample) (s1 s2 : tIMspeedObs F) :
  same_persistent_state s1 s2 ->
  tIMspeedObs_trace p s1 xs = tIMspeedObs_trace p s2 xs.
Proof.
  destruct xs as [|x xs]; [reflexivity|].
  intro H. simpl.
  rewrite (@tIMspeedObs_step_persistent_state p s1 s2 x H). reflexivity.
Qed.

(** C8: a replay depends on the record it starts from only through the
    persistent fields of that record.  Two records that agree on them, as
    two [IM_SPEED_OBS_DEFAULTS] records do, fed the same samples in the same
    order with the same machine parameters, give the same sequence of
    (speed, flux angle, flux magnitude), whatever stale inputs, outputs and
    sub-observer outputs either of them holds, and from the first sample on
    they hold the same record. *)
Theorem tIMspeedObs_replay_same_outputs
    (p : tIMparams F) (xs : list sample) (s1 s2 : tIMspeedObs F) :
  same_persistent_state s1 s2 ->
  tIMspeedObs_trace p s1 xs = tIMspeedObs_trace p s2 xs /\
  (forall x : sample,
     tIMspeedObs_after p s1 (x :: xs) = tIMspeedObs_after p s2 (x :: xs)).
Proof.
  intro H. split.
  - now apply tIMspeedObs_trace_persistent_state.
  - intro x. unfold tIMspeedObs_after. simpl fold_left.
    rewrite (@tIMspeedObs_step_persistent_state p s1 s2 x H). reflexivity.
Qed.

End SpeedObsFacts.

(** The delay on two samples: the rotor observer of the first call runs
    with the initial speed 0 while that call returns the speed 2, and the
    rotor observer of the second call runs with that 2 while the second
    call returns -1.5. *)
Lemma tIMspeedObs_calc_delay_values :
  let s1 := tIMspeedObs_step (LM := Ex.libm_flat) Ex.params Ex.speed Ex.meas in
  let s2 := tIMspeedObs_step (LM := Ex.libm_flat) Ex.params s1 Ex.meas in
  sIMrotObs.fWrE (sIMspeedObs.sIMrotObs s1) = f0 /\
  sIMspeedObs.fWrE s1 = Ex.z 2 /\
  sIMrotObs.fWrE (sIMspeedObs.sIMrotObs s2) = Ex.z 2 /\
  sIMspeedObs.fWrE s2 = Binary32.of_scaled (-3) (-1).
Proof. repeat split; vm_compute; reflexivity. Qed.

Lemma tIMspeedObs_calc_spec_witness :
  sPI.m_calc (sIMspeedObs.sPI (load_sample Ex.meas Ex.speed)) = Fn_tPI_calc /\
  sIMspeedObs.fWrE
    (tIMspeedObs_calc (LM := Ex.libm_flat) (load_sample Ex.meas Ex.speed)
       Ex.params) = Ex.z 2.
Proof.
  split; [reflexivity|].
  pose proof (@tIMspeedObs_calc_spec _ _ Ex.libm_flat
                (load_sample Ex.meas Ex.speed) Ex.params eq_refl) as H.
  cbv zeta in H.
  destruct H as (_ & _ & _ & _ & _ & Hw & _).
  rewrite Hw. vm_compute. reflexivity.
Defined.

Lemma tIMspeedObs_replay_same_outputs_witness :
  same_persistent_state IM_SPEED_OBS_DEFAULTS IM_SPEED_OBS_DEFAULTS /\
  same_persistent_state IM_SPEED_OBS_DEFAULTS Ex2.speed_stale /\
  Ex2.speed_stale <> IM_SPEED_OBS_DEFAULTS /\
  tIMspeedObs_trace (LM := Ex.libm_flat) Ex.params IM_SPEED_OBS_DEFAULTS
    [Ex.meas; Ex.meas]
  = tIMspeedObs_trace (LM := Ex.libm_flat) Ex.params Ex2.speed_stale
    [Ex.meas; Ex.meas].
Proof.
  assert (H : same_persistent_state
                (IM_SPEED_OBS_DEFAULTS : tIMspeedObs Binary32.float)
                Ex2.speed_stale).
  { unfold same_persistent_state. cbv zeta. repeat split. }
  split; [unfold same_persistent_state; cbv zeta; repeat split|].
  split; [exact H|].
  split; [vm_compute; discriminate|].
  apply (@tIMspeedObs_replay_same_outputs _ _ Ex.libm_flat Ex.params
           [Ex.meas; Ex.meas] IM_SPEED_OBS_DEFAULTS Ex2.speed_stale H).
Defined.

(** * Edge behaviour and composition *)

(** * Further properties of the controllers *)

Section ControllerStructure.
Context {F : Type} {FA : FloatArith F}.
Local Open Scope cfloat_scope.

(** The P controller has no memory: a second call changes nothing, and the
    output field on entry has no influence on the record returned. *)
Theorem tP_calc_memoryless (c : tP F) :
  tP_calc (tP_calc c) = tP_calc c /\
  (forall o : F, tP_calc (sP.set_fOut o c) = tP_calc c).
Proof. split; [|intro o]; reflexivity. Qed.

(** The output limits reach nothing but the output field: two PI records
    that differ only in their limits and output leave [tPI_calc] with the
    same proportional link, integral link and integral history, so the
    integral link keeps integrating while the output is saturated. *)
Theorem tPI_calc_links_ignore_limits
    (dt x kp ki up low up' low' po io ipi ipo o o' : F) (f g : fptr_sPI) :
  let a := tPI_calc (sPI.mk dt x kp ki up low po io ipi ipo o f g) in
  let b := tPI_calc (sPI.mk dt x kp ki up' low' po io ipi ipo o' f g) in
  sPI.fPout a = sPI.fPout b /\
  sPI.fIout a = sPI.fIout b /\
  sPI.fIprevIn a = sPI.fIprevIn b /\
  sPI.fIprevOut a = sPI.fIprevOut b /\
  tPI_preOut a = tPI_preOut b.
Proof. by_evaluation. Qed.

(** The PID controller is the PI controller and the PD controller side by
    side: its proportional and integral fields are those [tPI_calc] computes
    on the shared fields, its derivative fields are those [tPD_calc]
    computes, and its output is the saturated sum of the three links. *)
Theorem tPID_calc_is_PI_and_PD (c : tPID F) :
  let r := tPID_calc c in
  let i := tPI_calc (pi_of_pid c) in
  let d := tPD_calc (pd_of_pid c) in
  sPID.fPout r = sPI.fPout i /\
  sPID.fIout r = sPI.fIout i /\
  sPID.fIprevIn r = sPI.fIprevIn i /\
  sPID.fIprevOut r = sPI.fIprevOut i /\
  sPID.fPout r = sPD.fPout d /\
  sPID.fDout r = sPD.fDout d /\
  sPID.fDprevIn r = sPD.fDprevIn d /\
  sPID.fDprevOut r = sPD.fDprevOut d /\
  sPID.fOut r =
    saturate (sPI.fPout i + sPI.fIout i + sPD.fDout d)
             (sPID.fUpOutLim c) (sPID.fLowOutLim c).
Proof. by_evaluation. Qed.

Lemma tPD_calc_frame (c : tPD F) :
  sPD.fIn (tPD_calc c) = sPD.fIn c /\
  sPD.fDtSec (tPD_calc c) = sPD.fDtSec c /\
  sPD.fKp (tPD_calc c) = sPD.fKp c /\
  sPD.fKd (tPD_calc c) = sPD.fKd c.
Proof. by_evaluation. Qed.

Lemma tPD_hold_config (x : F) (n : nat) (c : tPD F) :
  sPD.fDtSec (tPD_hold x n c) = sPD.fDtSec c /\
  sPD.fKp (tPD_hold x n c) = sPD.fKp c /\
  sPD.fKd (tPD_hold x n c) = sPD.fKd c.
Proof.
  induction n as [|n IH]; [repeat split; reflexivity|].
  destruct IH as (H1 & H2 & H3).
  destruct (tPD_calc_frame (sPD.set_fIn x (tPD_hold x n c)))
    as (_ & Hd & Hp & Hk).
  change (tPD_hold x (S n) c) with (tPD_calc (sPD.set_fIn x (tPD_hold x n c))).
  rewrite Hd, Hp, Hk. repeat split; assumption.
Qed.

Lemma tPD_hold_step (x : F) (n : nat) (c : tPD F) :
  sPD.fDprevIn (tPD_hold x (S n) c) = x * sPD.fKp c /\
  sPD.fDout (tPD_hold x (S n) c) =
    (x * sPD.fKp c * sPD.fKd c - sPD.fDprevIn (tPD_hold x n c))
      / sPD.fDtSec c.
Proof.
  destruct (tPD_hold_config x n c) as (Hd & Hp & Hk).
  change (tPD_hold x (S n) c) with (tPD_calc (sPD.set_fIn x (tPD_hold x n c))).
  rewrite <- Hd, <- Hp, <- Hk. split; reflexivity.
Qed.

(** A PD controller held at a constant input [x] from reset: the
    derivative link is [(x Kp Kd - 0) / Dt] at the first sample and
    [(x Kp Kd - x Kp) / Dt] at every later sample: the difference is taken
    between the proportional output scaled by [Kd] and the unscaled
    proportional output stored at the previous call. *)
Theorem tPD_hold_derivative_link (x : F) (n : nat) (c : tPD F) :
  sPD.fDout (tPD_hold x 1 c) = (x * sPD.fKp c * sPD.fKd c - f0) / sPD.fDtSec c /\
  sPD.fDout (tPD_hold x (S (S n)) c) =
    (x * sPD.fKp c * sPD.fKd c - x * sPD.fKp c) / sPD.fDtSec c.
Proof.
  split.
  - destruct (tPD_hold_step x 0 c) as [_ H]. rewrite H. reflexivity.
  - destruct (tPD_hold_step x (S n) c) as [_ H]. rewrite H.
    destruct (tPD_hold_step x n c) as [Hp _]. rewrite Hp. reflexivity.
Qed.

(** The output and link fields each compute function returns. *)
Lemma tP_calc_output (c : tP F) :
  sP.fOut (tP_calc c)
    = saturate (sP.fIn c * sP.fKp c) (sP.fUpOutLim c) (sP.fLowOutLim c).
Proof. by_evaluation. Qed.

Lemma tPI_calc_links (c : tPI F) :
  sPI.fIout (tPI_calc c) =
    sPI.fIprevOut c + f0_5 * sPI.fDtSec c *
      (sPI.fIn c * sPI.fKp c * sPI.fKi c + sPI.fIprevIn c) /\
  sPI.fIprevOut (tPI_calc c) = sPI.fIout (tPI_calc c) /\
  sPI.fOut (tPI_calc c) =
    saturate (sPI.fIn c * sPI.fKp c + sPI.fIout (tPI_calc c))
             (sPI.fUpOutLim c) (sPI.fLowOutLim c).
Proof. by_evaluation. Qed.

Lemma tPI_feed_links (c : tPI F) (x : F) :
  sPI.fIout (tPI_feed c x) =
    sPI.fIprevOut c + f0_5 * sPI.fDtSec c *
      (x * sPI.fKp c * sPI.fKi c + sPI.fIprevIn c) /\
  sPI.fIprevOut (tPI_feed c x) = sPI.fIout (tPI_feed c x) /\
  sPI.fOut (tPI_feed c x) =
    saturate (x * sPI.fKp c + sPI.fIout (tPI_feed c x))
             (sPI.fUpOutLim c) (sPI.fLowOutLim c).
Proof. by_evaluation. Qed.

Lemma tPD_calc_output (c : tPD F) :
  sPD.fOut (tPD_calc c) =
    saturate (sPD.fIn c * sPD.fKp c + sPD.fDout (tPD_calc c))
             (sPD.fUpOutLim c) (sPD.fLowOutLim c).
Proof. by_evaluation. Qed.

Lemma tPID_calc_output (c : tPID F) :
  sPID.fOut (tPID_calc c) =
    saturate (sPID.fIn c * sPID.fKp c + sPID.fIout (tPID_calc c)
              + sPID.fDout (tPID_calc c))
             (sPID.fUpOutLim c) (sPID.fLowOutLim c).
Proof. by_evaluation. Qed.

End ControllerStructure.

(** * Binary32: saturation and NaN *)

Section Binary32Facts.
Local Open Scope cfloat_scope.
Implicit Types x y up low : Binary32.float.

Lemma SFcompare_refl_not_Lt x : SFcompare x x <> Some Lt.
Proof.
  destruct x as [s|s| |s m e]; simpl; try discriminate.
  - destruct s; discriminate.
  - destruct s; rewrite Z.compare_refl, Pos.compare_cont_refl; discriminate.
Qed.

Lemma SFltb_irrefl x : SFltb x x = false.
Proof.
  unfold SFltb. pose proof (SFcompare_refl_not_Lt x) as H.
  destruct (SFcompare x x) as [[| |]|]; try reflexivity.
  now elim H.
Qed.

(** NaN is absorbing for the four operations and false in comparisons. *)
Lemma nan_add_l y : S754_nan + y = S754_nan.
Proof. reflexivity. Qed.
Lemma nan_add_r x : x + S754_nan = S754_nan.
Proof. destruct x; reflexivity. Qed.
Lemma nan_sub_l y : S754_nan - y = S754_nan.
Proof. reflexivity. Qed.
Lemma nan_sub_r x : x - S754_nan = S754_nan.
Proof. destruct x; reflexivity. Qed.
Lemma nan_mul_l y : S754_nan * y = S754_nan.
Proof. reflexivity. Qed.
Lemma nan_mul_r x : x * S754_nan = S754_nan.
Proof. destruct x; reflexivity. Qed.
Lemma nan_div_l y : S754_nan / y = S754_nan.
Proof. reflexivity. Qed.
Lemma nan_div_r x : x / S754_nan = S754_nan.
Proof. destruct x; reflexivity. Qed.

Lemma saturate_nan up low : saturate S754_nan up low = S754_nan.
Proof.
  unfold saturate. cbn [fgt flt binary32].
  destruct up; destruct low; reflexivity.
Qed.

(** With limits in order, the saturated value is neither above the upper
    limit nor below the lower one. *)
Lemma saturate_within_limits x up low :
  (up <? low) = false ->
  (saturate x up low >? up) = false /\ (saturate x up low <? low) = false.
Proof.
  intro H. unfold saturate. cbn [fgt flt binary32] in *.
  destruct (SFltb up x) eqn:E1.
  - rewrite H. split; [apply SFltb_irrefl | exact H].
  - destruct (SFltb x low) eqn:E2.
    + split; [exact H | apply SFltb_irrefl].
    + split; assumption.
Qed.

(** For each of the four controllers with limits in order (the upper limit
    is not below the lower one), the output on return is not above the upper
    limit and not below the lower limit. *)
Theorem controllers_output_within_limits
    (a : tP Binary32.float) (b : tPI Binary32.float)
    (c : tPD Binary32.float) (d : tPID Binary32.float) :
  (sP.fUpOutLim a <? sP.fLowOutLim a) = false ->
  (sPI.fUpOutLim b <? sPI.fLowOutLim b) = false ->
  (sPD.fUpOutLim c <? sPD.fLowOutLim c) = false ->
  (sPID.fUpOutLim d <? sPID.fLowOutLim d) = false ->
  ((sP.fOut (tP_calc a) >? sP.fUpOutLim a) = false /\
   (sP.fOut (tP_calc a) <? sP.fLowOutLim a) = false) /\
  ((sPI.fOut (tPI_calc b) >? sPI.fUpOutLim b) = false /\
   (sPI.fOut (tPI_calc b) <? sPI.fLowOutLim b) = false) /\
  ((sPD.fOut (tPD_calc c) >? sPD.fUpOutLim c) = false /\
   (sPD.fOut (tPD_calc c) <? sPD.fLowOutLim c) = false) /\
  ((sPID.fOut (tPID_calc d) >? sPID.fUpOutLim d) = false /\
   (sPID.fOut (tPID_calc d) <? sPID.fLowOutLim d) = false).
Proof.
  intros Ha Hb Hc Hd.
  split; [|split; [|split]].
  - rewrite tP_calc_output. apply saturate_within_limits, Ha.
  - destruct (tPI_calc_links b) as (_ & _ & ->).
    apply saturate_within_limits, Hb.
  - rewrite tPD_calc_output. apply saturate_within_limits, Hc.
  - rewrite tPID_calc_output. apply saturate_within_limits, Hd.
Qed.

(** A NaN input goes through every controller: whatever the gains, the
    history and the limits, the output of the call is NaN; saturation does
    not catch it. *)
Theorem controllers_nan_input_nan_output
    (a : tP Binary32.float) (b : tPI Binary32.float)
    (c : tPD Binary32.float) (d : tPID Binary32.float) :
  sP.fIn a = S754_nan -> sPI.fIn b = S754_nan ->
  sPD.fIn c = S754_nan -> sPID.fIn d = S754_nan ->
  sP.fOut (tP_calc a) = S754_nan /\
  sPI.fOut (tPI_calc b) = S754_nan /\
  sPD.fOut (tPD_calc c) = S754_nan /\
  sPID.fOut (tPID_calc d) = S754_nan.
Proof.
  intros Ha Hb Hc Hd.
  split; [|split; [|split]].
  - rewrite tP_calc_output, Ha, nan_mul_l. apply saturate_nan.
  - destruct (tPI_calc_links b) as (_ & _ & ->).
    rewrite Hb, nan_mul_l, nan_add_l. apply saturate_nan.
  - rewrite tPD_calc_output, Hc, nan_mul_l, nan_add_l. apply saturate_nan.
  - rewrite tPID_calc_output, Hd, nan_mul_l, !nan_add_l. apply saturate_nan.
Qed.

(** Once the integral history of a PI record is NaN it stays NaN, and so
    does the output, whatever the input of the call. *)
Lemma tPI_feed_nan_history (c : tPI Binary32.float) x :
  sPI.fIprevOut c = S754_nan ->
  sPI.fIprevOut (tPI_feed c x) = S754_nan /\
  sPI.fOut (tPI_feed c x) = S754_nan.
Proof.
  intro H. destruct (tPI_feed_links c x) as (HI & HP & HO).
  rewrite H, nan_add_l in HI.
  split.
  - rewrite HP. exact HI.
  - rewrite HO, HI, nan_add_r. apply saturate_nan.
Qed.

Lemma tPI_feed_nan_input (c : tPI Binary32.float) :
  sPI.fIprevOut (tPI_feed c S754_nan) = S754_nan /\
  sPI.fOut (tPI_feed c S754_nan) = S754_nan.
Proof.
  destruct (tPI_feed_links c S754_nan) as (HI & HP & HO).
  rewrite !nan_mul_l, nan_add_l, nan_mul_r, nan_add_r in HI.
  split.
  - rewrite HP. exact HI.
  - rewrite HO, nan_mul_l, nan_add_l. apply saturate_nan.
Qed.

Lemma tPI_run_nan_history (ys : list Binary32.float) :
  forall c : tPI Binary32.float,
    sPI.fIprevOut c = S754_nan -> sPI.fOut c = S754_nan ->
    sPI.fIprevOut (tPI_run c ys) = S754_nan /\
    sPI.fOut (tPI_run c ys) = S754_nan.
Proof.
  induction ys as [|y ys IH]; intros c H1 H2; [split; assumption|].
  destruct (tPI_feed_nan_history c y H1) as [H1' H2'].
  exact (IH (tPI_feed c y) H1' H2').
Qed.

(** One NaN input poisons a PI controller for good: whatever the record
    before, the inputs before and the inputs after, the output after the
    last sample is NaN (only [tPI_rst] clears the integral history). *)
Theorem tPI_run_nan_latches
    (c : tPI Binary32.float) (xs ys : list Binary32.float) :
  sPI.fOut (tPI_run c (xs ++ S754_nan :: ys)) = S754_nan /\
  sPI.fIprevOut (tPI_run c (xs ++ S754_nan :: ys)) = S754_nan /\
  sPI.fIprevOut (tPI_rst (tPI_run c (xs ++ S754_nan :: ys))) = f0.
Proof.
  unfold tPI_run. rewrite fold_left_app. simpl fold_left.
  destruct (tPI_feed_nan_input (fold_left tPI_feed xs c)) as [H1 H2].
  destruct (tPI_run_nan_history ys _ H1 H2) as [H3 H4].
  split; [exact H4|]. split; [exact H3|]. by_evaluation.
Qed.

End Binary32Facts.

(** * Further properties of the estimators *)

Section EstimatorStructure.
Context {F : Type} {FA : FloatArith F}.
Local Open Scope cfloat_scope.

(** The two back-EMF outputs of the stator observer are products by
    [f1divKr]. *)
Lemma tIMstatObs_calc_outputs (s : tIMstatObs F) (p : tIMparams F) :
  sIMstatObs.fEsAl (tIMstatObs_calc s p) =
    (sIMstatObs.fUsAl s - sIMparams.fRs p * sIMstatObs.fIsAl s
       - sIMparams.fSigLs p *
           ((sIMstatObs.fIsAl s - sIMstatObs.fPrevIsAl s) / sIMparams.fDt p))
    * sIMparams.f1divKr p /\
  sIMstatObs.fEsBe (tIMstatObs_calc s p) =
    (sIMstatObs.fUsBe s - sIMparams.fRs p * sIMstatObs.fIsBe s
       - sIMparams.fSigLs p *
           ((sIMstatObs.fIsBe s - sIMstatObs.fPrevIsBe s) / sIMparams.fDt p))
    * sIMparams.f1divKr p.
Proof. by_evaluation. Qed.

Lemma tIMparams_init_coefficients (p : tIMparams F) :
  sIMparams.f1divTr (tIMparams_init p) = sIMparams.fRr p / sIMparams.fLr p /\
  sIMparams.f1divKr (tIMparams_init p) = sIMparams.fLr p / sIMparams.fLm p /\
  sIMparams.fSigLs (tIMparams_init p) =
    (f1 - sIMparams.fLm p * sIMparams.fLm p
            / (sIMparams.fLs p * sIMparams.fLr p)) * sIMparams.fLs p.
Proof. by_evaluation. Qed.

(** The copying statements do not read the controller record. *)
Lemma inputs_loaded_ignore_controller (s : tIMspeedObs F) (c : tPI F) :
  stat_inputs_loaded (sIMspeedObs.set_sPI c s) = stat_inputs_loaded s /\
  rot_inputs_loaded (sIMspeedObs.set_sPI c s) = rot_inputs_loaded s.
Proof. split; reflexivity. Qed.

Context {LM : LibM F}.

(** Within one call the controller has no influence on the observers or on
    the flux outputs: replacing the controller record changes neither the
    stator observer, nor the rotor observer, nor the flux angle and
    magnitude returned by this call. *)
Theorem tIMspeedObs_calc_flux_ignores_controller
    (s : tIMspeedObs F) (c : tPI F) (p : tIMparams F) :
  let a := tIMspeedObs_calc (sIMspeedObs.set_sPI c s) p in
  let b := tIMspeedObs_calc s p in
  sIMspeedObs.sIMstatObs a = sIMspeedObs.sIMstatObs b /\
  sIMspeedObs.sIMrotObs a = sIMspeedObs.sIMrotObs b /\
  sIMspeedObs.fFrAng a = sIMspeedObs.fFrAng b /\
  sIMspeedObs.fFrMagn a = sIMspeedObs.fFrMagn b.
Proof.
  cbv zeta. rewrite !tIMspeedObs_calc_unfold. cbv zeta.
  cbv beta iota delta [sIMspeedObs.sIMstatObs sIMspeedObs.sIMrotObs
                       sIMspeedObs.fFrAng sIMspeedObs.fFrMagn].
  destruct (inputs_loaded_ignore_controller s c) as [-> ->].
  change (sIMspeedObs.fIsAl (sIMspeedObs.set_sPI c s))
    with (sIMspeedObs.fIsAl s).
  repeat split.
Qed.

End EstimatorStructure.

(** ** Binary32: degenerate machine parameters *)

Section Binary32Estimators.
Local Open Scope cfloat_scope.

(** With the rotor and magnetizing inductances both zero, of either sign,
    as [IM_PARAMS_DEFAULTS] leaves them, [tIMparams_init] returns NaN for
    [f1divKr] and for [fSigLs], whatever the other constants. *)
Theorem tIMparams_init_zero_inductances
    (p : tIMparams Binary32.float) (b1 b2 : bool) :
  sIMparams.fLr p = S754_zero b1 -> sIMparams.fLm p = S754_zero b2 ->
  sIMparams.f1divKr (tIMparams_init p) = S754_nan /\
  sIMparams.fSigLs (tIMparams_init p) = S754_nan.
Proof.
  intros Hr Hm.
  destruct (tIMparams_init_coefficients p) as (_ & HK & HS).
  rewrite HK, HS, Hr, Hm. split; [reflexivity|].
  destruct (sIMparams.fLs p) as [s|s| |s m e]; destruct b1, b2; reflexivity.
Qed.

Lemma tIMstatObs_calc_outputs_nan
    (s : tIMstatObs Binary32.float) (p : tIMparams Binary32.float) :
  sIMparams.f1divKr p = S754_nan ->
  sIMstatObs.fEsAl (tIMstatObs_calc s p) = S754_nan /\
  sIMstatObs.fEsBe (tIMstatObs_calc s p) = S754_nan.
Proof.
  intro H. destruct (tIMstatObs_calc_outputs s p) as [-> ->].
  rewrite H. split; apply nan_mul_r.
Qed.

(** With a NaN coupling coefficient [f1divKr] both back-EMF outputs of the
    stator observer are NaN, whatever the measurements and the history. *)
Theorem tIMstatObs_calc_nan_coupling
    (s : tIMstatObs Binary32.float) (p : tIMparams Binary32.float) :
  sIMparams.f1divKr p = S754_nan ->
  sIMstatObs.fEsAl (tIMstatObs_calc s p) = S754_nan /\
  sIMstatObs.fEsBe (tIMstatObs_calc s p) = S754_nan.
Proof. apply tIMstatObs_calc_outputs_nan. Qed.

Context {LM : LibM Binary32.float}.

(** With a NaN coupling coefficient the speed estimate of the speed
    observer is NaN after the call, whatever the record, the sample and the
    output limits of the controller, and the integral history of the
    controller is NaN as well. *)
Theorem tIMspeedObs_calc_nan_coupling
    (s : tIMspeedObs Binary32.float) (p : tIMparams Binary32.float) :
  sIMparams.f1divKr p = S754_nan ->
  sPI.m_calc (sIMspeedObs.sPI s) = Fn_tPI_calc ->
  sIMspeedObs.fWrE (tIMspeedObs_calc s p) = S754_nan /\
  sPI.fIprevOut (sIMspeedObs.sPI (tIMspeedObs_calc s p)) = S754_nan.
Proof.
  intros Hk Hcalc. rewrite tIMspeedObs_calc_unfold. cbv zeta.
  rewrite Hcalc.
  cbv beta iota delta [sIMspeedObs.fWrE sIMspeedObs.sPI call_sPI].
  destruct (@tIMstatObs_calc_outputs_nan (stat_inputs_loaded s) p Hk)
    as [-> ->].
  rewrite !nan_sub_l, !nan_mul_r, nan_sub_l.
  destruct (tPI_feed_nan_input (sIMspeedObs.sPI s)) as [H1 H2].
  unfold tPI_feed in H1, H2. split; assumption.
Qed.

End Binary32Estimators.

(** * Binary32: exchanged limits, zero input, steady current *)

(** Case analysis on the comparisons of exponents and mantissas that
    [SFcompare] makes. *)
Ltac compare_cases :=
  repeat match goal with
  | H : context [Pos.compare_cont Eq ?a ?b] |- _ =>
      change (Pos.compare_cont Eq a b) with (Pos.compare a b) in H
  | |- context [Pos.compare_cont Eq ?a ?b] =>
      change (Pos.compare_cont Eq a b) with (Pos.compare a b)
  | H : context [Z.compare ?a ?b] |- _ => destruct (Z.compare_spec a b)
  | H : context [Pos.compare ?a ?b] |- _ => destruct (Pos.compare_spec a b)
  | |- context [Z.compare ?a ?b] => destruct (Z.compare_spec a b)
  | |- context [Pos.compare ?a ?b] => destruct (Pos.compare_spec a b)
  end.

Section Binary32Order.
Local Open Scope cfloat_scope.
Implicit Types x y z up low : Binary32.float.

(** A value that is not above [up] is below whatever [up] is below. *)
Lemma SFltb_below_lower x up low :
  SFltb up low = true -> SFltb up x = false -> x <> S754_nan ->
  SFltb x low = true.
Proof.
  unfold SFltb.
  destruct x as [sx|sx| |sx mx ex]; destruct up as [su|su| |su mu eu];
    destruct low as [sl|sl| |sl ml el]; simpl;
    intros H1 H2 H3; try discriminate; try congruence;
    repeat match goal with b : bool |- _ => destruct b end;
    simpl in *; try discriminate; try reflexivity;
    compare_cases; simpl in *; subst;
    try discriminate; try reflexivity; try lia.
Qed.

Lemma saturate_exchanged x up low :
  (up <? low) = true ->
  saturate x up low = if is_nan32 x then S754_nan else low.
Proof.
  intro H. destruct (is_nan32 x) eqn:N.
  - destruct x; try discriminate. apply saturate_nan.
  - assert (Hx : x <> S754_nan) by (intros ->; discriminate).
    unfold saturate. cbn [fgt flt binary32] in *.
    destruct (SFltb up x) eqn:E.
    + rewrite H. reflexivity.
    + rewrite (@SFltb_below_lower x up low H E Hx). reflexivity.
Qed.

(** For each of the four controllers with the limits exchanged (the upper
    limit is below the lower limit), the output on return is the lower
    limit whenever the sum of the links is a number, and NaN when it is
    NaN: the second saturation statement always fires. *)
Theorem controllers_exchanged_limits
    (a : tP Binary32.float) (b : tPI Binary32.float)
    (c : tPD Binary32.float) (d : tPID Binary32.float) :
  (sP.fUpOutLim a <? sP.fLowOutLim a) = true ->
  (sPI.fUpOutLim b <? sPI.fLowOutLim b) = true ->
  (sPD.fUpOutLim c <? sPD.fLowOutLim c) = true ->
  (sPID.fUpOutLim d <? sPID.fLowOutLim d) = true ->
  sP.fOut (tP_calc a) =
    (if is_nan32 (sP.fIn a * sP.fKp a)
     then S754_nan else sP.fLowOutLim a) /\
  sPI.fOut (tPI_calc b) =
    (if is_nan32 (sPI.fIn b * sPI.fKp b + sPI.fIout (tPI_calc b))
     then S754_nan else sPI.fLowOutLim b) /\
  sPD.fOut (tPD_calc c) =
    (if is_nan32 (sPD.fIn c * sPD.fKp c + sPD.fDout (tPD_calc c))
     then S754_nan else sPD.fLowOutLim c) /\
  sPID.fOut (tPID_calc d) =
    (if is_nan32 (sPID.fIn d * sPID.fKp d + sPID.fIout (tPID_calc d)
                  + sPID.fDout (tPID_calc d))
     then S754_nan else sPID.fLowOutLim d).
Proof.
  intros Ha Hb Hc Hd. split; [|split; [|split]].
  - rewrite tP_calc_output. now apply saturate_exchanged.
  - destruct (tPI_calc_links b) as (_ & _ & ->).
    now apply saturate_exchanged.
  - rewrite tPD_calc_output. now apply saturate_exchanged.
  - rewrite tPID_calc_output. now apply saturate_exchanged.
Qed.

(** Zeros: products and sums of zeros with finite values. *)
Lemma zero_mul_finite z k :
  is_zero32 z = true -> is_finite32 k = true -> is_zero32 (z * k) = true.
Proof. destruct z; destruct k; try discriminate; reflexivity. Qed.

Lemma finite_mul_zero k z :
  is_finite32 k = true -> is_zero32 z = true -> is_zero32 (k * z) = true.
Proof. destruct z; destruct k; try discriminate; reflexivity. Qed.

Lemma zero_add_zero y z :
  is_zero32 y = true -> is_zero32 z = true -> is_zero32 (y + z) = true.
Proof.
  destruct y as [sy| | |]; destruct z as [sz| | |]; try discriminate.
  destruct sy, sz; reflexivity.
Qed.

Lemma saturate_zero z up low :
  is_zero32 z = true -> (f0 >? up) = false -> (f0 <? low) = false ->
  saturate z up low = z.
Proof.
  destruct z as [sz| | |]; try discriminate. intros _ Hu Hl.
  unfold saturate. cbn [fgt flt binary32 f0] in *.
  assert (E1 : SFltb up (S754_zero sz) = SFltb up (S754_zero false))
    by (destruct up; reflexivity).
  assert (E2 : SFltb (S754_zero sz) low = SFltb (S754_zero false) low)
    by (destruct low; reflexivity).
  rewrite E1, Hu, E2, Hl. reflexivity.
Qed.

Lemma tPI_hold_limits (x : Binary32.float) (n : nat) (c : tPI Binary32.float) :
  sPI.fUpOutLim (tPI_hold x n c) = sPI.fUpOutLim c /\
  sPI.fLowOutLim (tPI_hold x n c) = sPI.fLowOutLim c.
Proof.
  induction n as [|n [IH1 IH2]]; [split; reflexivity|].
  change (tPI_hold x (S n) c) with (tPI_calc (sPI.set_fIn x (tPI_hold x n c))).
  destruct (tPI_calc_frame (sPI.set_fIn x (tPI_hold x n c)))
    as (_ & _ & _ & _ & Hu & Hl & _).
  rewrite Hu, Hl. split; assumption.
Qed.

Lemma tPI_hold_zero_input_state (n : nat) (c : tPI Binary32.float) :
  is_finite32 (sPI.fKp c) = true -> is_finite32 (sPI.fKi c) = true ->
  is_finite32 (f0_5 * sPI.fDtSec c) = true ->
  (f0 >? sPI.fUpOutLim c) = false -> (f0 <? sPI.fLowOutLim c) = false ->
  is_zero32 (sPI.fIprevIn (tPI_hold f0 n c)) = true /\
  is_zero32 (sPI.fIprevOut (tPI_hold f0 n c)) = true /\
  is_zero32 (sPI.fOut (tPI_hold f0 n c)) = true.
Proof.
  intros Hp Hi Hd Hu Hl.
  induction n as [|n (IPI & IPO & _)]; [repeat split|].
  destruct (tPI_hold_step f0 n c) as (_ & HPI & HPO & HI).
  cbv zeta in HPI, HPO, HI.
  destruct (tPI_hold_config f0 n c) as (Cd & Cp & Ci).
  destruct (tPI_hold_limits f0 n c) as (Cu & Cl).
  assert (ZP : is_zero32 (f0 * sPI.fKp c) = true)
    by (apply zero_mul_finite; [reflexivity | exact Hp]).
  assert (ZI : is_zero32 (sPI.fIout (tPI_hold f0 (S n) c)) = true).
  { rewrite HI. apply zero_add_zero; [exact IPO|].
    apply finite_mul_zero; [exact Hd|].
    apply zero_add_zero; [|exact IPI].
    apply zero_mul_finite; [exact ZP | exact Hi]. }
  split; [rewrite HPI; exact ZP|].
  split; [rewrite HPO; exact ZI|].
  change (tPI_hold f0 (S n) c) with (tPI_feed (tPI_hold f0 n c) f0) in *.
  destruct (tPI_feed_links (tPI_hold f0 n c) f0) as (_ & _ & ->).
  rewrite Cp, Cu, Cl.
  rewrite saturate_zero; [| |exact Hu|exact Hl];
    apply zero_add_zero; assumption.
Qed.

(** A PI controller reset by [tPI_rst] and then fed the input 0 returns a
    zero, of either sign, at every sample, provided the two gains and half
    the sampling interval are finite and 0 is neither above the upper limit
    nor below the lower one. *)
Theorem tPI_hold_zero_input (n : nat) (c : tPI Binary32.float) :
  is_finite32 (sPI.fKp c) = true -> is_finite32 (sPI.fKi c) = true ->
  is_finite32 (f0_5 * sPI.fDtSec c) = true ->
  (f0 >? sPI.fUpOutLim c) = false -> (f0 <? sPI.fLowOutLim c) = false ->
  is_zero32 (sPI.fOut (tPI_hold f0 n c)) = true.
Proof.
  intros Hp Hi Hd Hu Hl.
  exact (proj2 (proj2 (@tPI_hold_zero_input_state n c Hp Hi Hd Hu Hl))).
Qed.

(** The difference of a finite value with itself is +0; a zero divided by
    a number other than zero is a zero. *)
Lemma finite_sub_self x :
  is_finite32 x = true -> x - x = S754_zero false.
Proof.
  destruct x as [s| | |s m e]; try discriminate; intros _.
  - destruct s; reflexivity.
  - cbn [fsub binary32]. unfold SFsub.
    rewrite Z.sub_diag. reflexivity.
Qed.

Lemma zero_div_nonzero z d :
  is_zero32 z = true -> is_nonzero32 d = true -> is_zero32 (z / d) = true.
Proof. destruct z; destruct d; try discriminate; reflexivity. Qed.

(** A second call of the stator observer on unchanged measurements: when
    the currents and [fSigLs] are finite and [fDt] is neither zero nor NaN,
    the derivative term of each axis is a zero, so each back-EMF is
    [(fUs - fRs * fIs - z) * f1divKr] for a zero [z]. *)
Theorem tIMstatObs_calc_steady_current
    (s : tIMstatObs Binary32.float) (p : tIMparams Binary32.float) :
  is_finite32 (sIMstatObs.fIsAl s) = true ->
  is_finite32 (sIMstatObs.fIsBe s) = true ->
  is_finite32 (sIMparams.fSigLs p) = true ->
  is_nonzero32 (sIMparams.fDt p) = true ->
  let s2 := tIMstatObs_calc (tIMstatObs_calc s p) p in
  exists zAl zBe : bool,
    sIMstatObs.fEsAl s2 =
      (sIMstatObs.fUsAl s - sIMparams.fRs p * sIMstatObs.fIsAl s
         - S754_zero zAl) * sIMparams.f1divKr p /\
    sIMstatObs.fEsBe s2 =
      (sIMstatObs.fUsBe s - sIMparams.fRs p * sIMstatObs.fIsBe s
         - S754_zero zBe) * sIMparams.f1divKr p.
Proof.
  intros Ha Hb Hs Hd. cbv zeta.
  destruct (tIMstatObs_calc_outputs (tIMstatObs_calc s p) p) as [-> ->].
  destruct (tIMstatObs_calc_frame s p) as (-> & -> & -> & -> & _).
  destruct (tIMstatObs_calc_history s p) as [-> ->].
  destruct (tIMstatObs_calc_frame s p) as (-> & -> & _).
  rewrite (@finite_sub_self _ Ha), (@finite_sub_self _ Hb).
  assert (Z : forall q : Binary32.float, is_zero32 q = true ->
             exists z : bool, sIMparams.fSigLs p * q = S754_zero z).
  { intros q Hq.
    pose proof (@finite_mul_zero (sIMparams.fSigLs p) q Hs Hq) as Hz.
    destruct (sIMparams.fSigLs p * q) as [z| | |]; try discriminate.
    exists z. reflexivity. }
  match goal with |- context [sIMparams.fSigLs p * ?q] =>
    destruct (Z q) as [z Hz];
      [apply zero_div_nonzero; [reflexivity | exact Hd]|]
  end.
  exists z, z. rewrite Hz. split; reflexivity.
Qed.

End Binary32Order.

(** ** Instances of the conditional properties *)

Lemma controllers_output_within_limits_witness :
  ((sP.fOut (tP_calc Ex2.p32) >? sP.fUpOutLim Ex2.p32)%cf = false /\
   (sP.fOut (tP_calc Ex2.p32) <? sP.fLowOutLim Ex2.p32)%cf = false) /\
  sP.fOut (tP_calc Ex2.p32) = Ex.z 2.
Proof.
  split; [|vm_compute; reflexivity].
  apply (@controllers_output_within_limits Ex2.p32 Ex.pi Ex2.pd32 Ex2.pid32);
    vm_compute; reflexivity.
Defined.

Lemma controllers_nan_input_nan_output_witness :
  sP.fOut (tP_calc Ex2.p32_nan) = S754_nan /\
  sPI.fOut (tPI_calc Ex2.pi32_nan) = S754_nan /\
  sPD.fOut (tPD_calc Ex2.pd32_nan) = S754_nan /\
  sPID.fOut (tPID_calc Ex2.pid32_nan) = S754_nan.
Proof.
  apply (@controllers_nan_input_nan_output
           Ex2.p32_nan Ex2.pi32_nan Ex2.pd32_nan Ex2.pid32_nan);
    reflexivity.
Defined.

Lemma tIMparams_init_zero_inductances_witness :
  sIMparams.fLr Ex2.params_no_inductance = S754_zero false /\
  sIMparams.fLm Ex2.params_no_inductance = S754_zero false /\
  sIMparams.f1divKr (tIMparams_init Ex2.params_no_inductance) = S754_nan /\
  sIMparams.fSigLs (tIMparams_init Ex2.params_no_inductance) = S754_nan.
Proof.
  split; [reflexivity | split; [reflexivity|]].
  apply (@tIMparams_init_zero_inductances Ex2.params_no_inductance
           false false eq_refl eq_refl).
Defined.

Lemma tIMstatObs_calc_nan_coupling_witness :
  sIMparams.f1divKr (tIMparams_init Ex2.params_no_inductance) = S754_nan /\
  sIMstatObs.fEsAl
    (tIMstatObs_calc Ex.stat (tIMparams_init Ex2.params_no_inductance))
    = S754_nan /\
  sIMstatObs.fEsBe
    (tIMstatObs_calc Ex.stat (tIMparams_init Ex2.params_no_inductance))
    = S754_nan.
Proof.
  assert (H : sIMparams.f1divKr (tIMparams_init Ex2.params_no_inductance)
              = S754_nan) by (vm_compute; reflexivity).
  split; [exact H|].
  apply (@tIMstatObs_calc_nan_coupling Ex.stat
           (tIMparams_init Ex2.params_no_inductance) H).
Defined.

Lemma tIMspeedObs_calc_nan_coupling_witness :
  sIMspeedObs.fWrE
    (tIMspeedObs_calc (LM := Ex.libm_flat) (load_sample Ex.meas Ex.speed)
       (tIMparams_init Ex2.params_no_inductance)) = S754_nan /\
  sPI.fIprevOut
    (sIMspeedObs.sPI
       (tIMspeedObs_calc (LM := Ex.libm_flat) (load_sample Ex.meas Ex.speed)
          (tIMparams_init Ex2.params_no_inductance))) = S754_nan.
Proof.
  apply (@tIMspeedObs_calc_nan_coupling Ex.libm_flat
           (load_sample Ex.meas Ex.speed)
           (tIMparams_init Ex2.params_no_inductance));
    vm_compute; reflexivity.
Defined.

Lemma controllers_exchanged_limits_witness :
  (sP.fUpOutLim Ex2.p32_exchanged <? sP.fLowOutLim Ex2.p32_exchanged)%cf
    = true /\
  sP.fOut (tP_calc Ex2.p32_exchanged) = Ex.z 2 /\
  sPI.fOut (tPI_calc Ex2.pi32_exchanged) = Ex.z 2 /\
  sPD.fOut (tPD_calc Ex2.pd32_exchanged) = Ex.z 2 /\
  sPID.fOut (tPID_calc Ex2.pid32_exchanged) = Ex.z 2.
Proof.
  split; [vm_compute; reflexivity|].
  apply (@controllers_exchanged_limits Ex2.p32_exchanged Ex2.pi32_exchanged
           Ex2.pd32_exchanged Ex2.pid32_exchanged);
    vm_compute; reflexivity.
Defined.

Lemma tPI_hold_zero_input_witness :
  is_finite32 (sPI.fKp Ex2.pi32_negative_gain) = true /\
  is_zero32 (sPI.fOut (tPI_hold f0 3 Ex2.pi32_negative_gain)) = true.
Proof.
  split; [reflexivity|].
  apply (@tPI_hold_zero_input 3 Ex2.pi32_negative_gain);
    vm_compute; reflexivity.
Defined.

Lemma tIMstatObs_calc_steady_current_witness :
  is_finite32 (sIMstatObs.fIsAl Ex.stat) = true /\
  is_nonzero32 (sIMparams.fDt Ex.params) = true /\
  exists zAl zBe : bool,
    sIMstatObs.fEsAl
      (tIMstatObs_calc (tIMstatObs_calc Ex.stat Ex.params) Ex.params) =
      ((sIMstatObs.fUsAl Ex.stat
          - sIMparams.fRs Ex.params * sIMstatObs.fIsAl Ex.stat
          - S754_zero zAl) * sIMparams.f1divKr Ex.params)%cf /\
    sIMstatObs.fEsBe
      (tIMstatObs_calc (tIMstatObs_calc Ex.stat Ex.params) Ex.params) =
      ((sIMstatObs.fUsBe Ex.stat
          - sIMparams.fRs Ex.params * sIMstatObs.fIsBe Ex.stat
          - S754_zero zBe) * sIMparams.f1divKr Ex.params)%cf.
Proof.
  split; [reflexivity|]. split; [vm_compute; reflexivity|].
  apply (@tIMstatObs_calc_steady_current Ex.stat Ex.params);
    vm_compute; reflexivity.
Defined.
